(** * Financeiro Pessoal: the classification and budget engine of [src/App.tsx]

    A shallow embedding of the logic that lives inside the single React
    component [AppFinanceiroPessoal]: the keyword rule engine ([applyRules]),
    the CSV field normalisation ([onImportCSV]), the monthly aggregation
    ([txMonth], [receitaMes], [despesaMes], [gastoPorCategoria]), the budget
    table ([budgetRows]), the JSON backup handlers, the state handlers
    ([removeTx], [updateTx], [setBudgetPct], [addRule]) and the daily
    series ([seriesDiaria]).

    Conventions of the embedding.
    - A JavaScript string is a [string], the bytes of its UTF-8 form;
      [split] on a comma and [includes] see the same pieces and the same
      occurrences there as on the code units.  The rule engine takes
      [toLowerCase] and [trim] from the host ([Host]) and is proved for
      every host; the examples run on a host that lowers the ASCII
      letters.  The normaliser trims with [JS.trim], which takes off the
      white space and line terminators of the language, the ones outside
      ASCII by their bytes.
    - A JavaScript number is its mathematical value in [Q]; rounding to
      binary64 is not represented.  A statement about a sum keeps the
      order in which the code adds.  [Number(s)] tells apart [NaN], the
      infinities and the finite values, and sends a literal beyond the
      finite range to an infinity and one below the smallest number to
      zero.  The fields of the records hold finite values.
    - An optional field ([account?: string]) is an [option]; truthiness of
      [t.category] is [truthy].
    - A plain object used as a dictionary ([Record<string, number>]) is a
      [gmap] of its own properties.  Where the code reads a key that the
      data chooses ([gastoPorCategoria], by category), the members the
      object inherits from [Object.prototype] are part of the model;
      where the keys are the categories of the vocabulary ([budgetRows])
      or dates ([seriesDiaria]) there is none to inherit.
    - React state is passed explicitly: a handler takes the state it reads
      and returns the value it hands to the setter. *)

From Stdlib Require Import QArith Qabs Qminmax Qround ZArith Ascii String List Permutation Sorted Lia.
From stdpp Require Import gmap strings list fin_maps.
Import ListNotations.

Set Warnings "-register-all".
Local Open Scope string_scope.
Local Open Scope Z_scope.

(** ** JavaScript string built-ins *)

Module JS.

Definition code (c : ascii) : nat := nat_of_ascii c.

Definition isUpper (c : ascii) : bool :=
  (Nat.leb 65 (code c) && Nat.leb (code c) 90)%bool.

Definition lowerChar (c : ascii) : ascii :=
  if isUpper c then ascii_of_nat (code c + 32) else c.

(** [String.prototype.toLowerCase] *)
Fixpoint toLowerCase (s : string) : string :=
  match s with
  | EmptyString => EmptyString
  | String c r => String (lowerChar c) (toLowerCase r)
  end.

(** A decimal digit, the class [\d] of the regular expressions. *)
Definition isDigit (c : ascii) : bool :=
  (Nat.leb 48 (code c) && Nat.leb (code c) 57)%bool.

(** The white space and line terminators of one byte: TAB, LF, VT, FF, CR
    and SP. *)
Definition isSpace (c : ascii) : bool :=
  (Nat.leb 9 (code c) && Nat.leb (code c) 13 || Nat.eqb (code c) 32)%bool.

(** The others, by their UTF-8 bytes.  U+00A0 is [C2 A0]. *)
Definition isSpace2 (c d : ascii) : bool :=
  (Nat.eqb (code c) 194 && Nat.eqb (code d) 160)%bool.

(** U+1680 is [E1 9A 80]; U+2000 to U+200A, U+2028, U+2029 and U+202F are
    [E2 80 80] to [E2 80 8A], [E2 80 A8], [E2 80 A9] and [E2 80 AF];
    U+205F is [E2 81 9F]; U+3000 is [E3 80 80]; U+FEFF is [EF BB BF]. *)
Definition isSpace3 (c d e : ascii) : bool :=
  (Nat.eqb (code c) 225 && Nat.eqb (code d) 154 && Nat.eqb (code e) 128 ||
   Nat.eqb (code c) 226 && Nat.eqb (code d) 128 &&
     (Nat.leb 128 (code e) && Nat.leb (code e) 138 ||
      Nat.eqb (code e) 168 || Nat.eqb (code e) 169 || Nat.eqb (code e) 175) ||
   Nat.eqb (code c) 226 && Nat.eqb (code d) 129 && Nat.eqb (code e) 159 ||
   Nat.eqb (code c) 227 && Nat.eqb (code d) 128 && Nat.eqb (code e) 128 ||
   Nat.eqb (code c) 239 && Nat.eqb (code d) 187 && Nat.eqb (code e) 191)%bool.

Fixpoint trimStart (s : string) : string :=
  match s with
  | EmptyString => EmptyString
  | String c r =>
      if isSpace c then trimStart r
      else match r with
           | String d r' =>
               if isSpace2 c d then trimStart r'
               else match r' with
                    | String e r'' => if isSpace3 c d e then trimStart r'' else s
                    | EmptyString => s
                    end
           | EmptyString => s
           end
  end.

(** Nothing but white space. *)
Definition allSpace (s : string) : bool :=
  match trimStart s with EmptyString => true | String _ _ => false end.

Fixpoint trimEnd (s : string) : string :=
  match s with
  | EmptyString => EmptyString
  | String c r => if allSpace s then EmptyString else String c (trimEnd r)
  end.

(** [String.prototype.trim]: white space and line terminators go from both
    ends.  These are also the characters [Number] skips around a numeric
    literal. *)
Definition trim (s : string) : string := trimEnd (trimStart s).

Fixpoint startsWith (s p : string) {struct p} : bool :=
  match p, s with
  | EmptyString, _ => true
  | String a p', String b s' => (Ascii.eqb a b && startsWith s' p')%bool
  | String _ _, EmptyString => false
  end.

(** [s.includes(k)]: [k] occurs in [s] as a contiguous substring. *)
Fixpoint includes (s k : string) : bool :=
  (startsWith s k ||
   match s with
   | EmptyString => false
   | String _ s' => includes s' k
   end)%bool.

(** [s.includes(c)] for a one-character needle. *)
Definition hasChar (s : string) (c : ascii) : bool :=
  includes s (String c EmptyString).

(** [s.split(sep)] for a one-character separator: never the empty list. *)
Fixpoint split (sep : ascii) (s : string) : list string :=
  match s with
  | EmptyString => [EmptyString]
  | String c r =>
      if Ascii.eqb c sep then EmptyString :: split sep r
      else match split sep r with
           | h :: t => String c h :: t
           | [] => [String c EmptyString]
           end
  end.

(** [Boolean(s)] for a string: the empty string is the only falsy one. *)
Definition nonEmpty (s : string) : bool :=
  match s with EmptyString => false | String _ _ => true end.

(** [Boolean(v)] for [v : string | undefined]. *)
Definition truthy (o : option string) : bool :=
  match o with Some s => nonEmpty s | None => false end.

(** [v ?? ""] *)
Definition orEmpty (o : option string) : string :=
  match o with Some s => s | None => EmptyString end.

(** The names every object created by [{}] inherits from
    [Object.prototype], as the language defines it: reading one of them on
    an object that has no own property of that name gives a function, and
    [__proto__] gives the prototype itself.  (A page that adds members to
    [Object.prototype] adds names to this list.) *)
Definition objectPrototype : list string :=
  [ "constructor"; "hasOwnProperty"; "isPrototypeOf"; "propertyIsEnumerable";
    "toLocaleString"; "toString"; "valueOf"; "__proto__";
    "__defineGetter__"; "__defineSetter__"; "__lookupGetter__";
    "__lookupSetter__" ].

Definition inherited (k : string) : bool :=
  existsb (String.eqb k) objectPrototype.

End JS.

(** The two string methods whose result rests on the host's Unicode
    tables: [String.prototype.toLowerCase] and [String.prototype.trim].
    The rule engine is stated for every host; the examples run on the
    ASCII one. *)
Class Host : Type := {
  toLowerCase : string -> string;
  trim : string -> string
}.

#[export] Instance asciiHost : Host :=
  {| toLowerCase := JS.toLowerCase; trim := JS.trim |}.

(** ** Data model *)

(** A parsed JSON text, also the shape of [raw?: any]. *)
Inductive json : Type :=
  | JNull
  | JBool (b : bool)
  | JNum (q : Q)
  | JStr (s : string)
  | JArr (items : list json)
  | JObj (props : list (string * json)).

(** [type Tx] *)
Record Tx : Type := mkTx {
  tx_id : string;
  date : string;
  amount : Q;
  description : string;
  account : option string;
  method : option string;
  category : option string;
  raw : option json
}.

(** [type Rule] *)
Record Rule : Type := mkRule {
  rule_id : string;
  keywords : string;
  rule_category : string;
  enabled : bool;
  priority : Z
}.

(** [{ ...t, category: c }] *)
Definition withCategory (t : Tx) (c : string) : Tx :=
  {| tx_id := tx_id t; date := date t; amount := amount t;
     description := description t; account := account t;
     method := method t; category := Some c; raw := raw t |}.

(** ** Rule engine: [applyRules] *)

Module RuleEngine.

(** [Array.prototype.sort] with the comparator [(a, b) => a.priority -
    b.priority].  The sort is stable; an insertion sort that puts an element
    before the first one that is not smaller gives the same list as any
    stable sort (see [sortByPriority_unique]). *)
Fixpoint insertByPriority (x : Rule) (l : list Rule) : list Rule :=
  match l with
  | [] => [x]
  | y :: l' =>
      if priority x <=? priority y then x :: y :: l'
      else y :: insertByPriority x l'
  end.

Fixpoint sortByPriority (l : list Rule) : list Rule :=
  match l with
  | [] => []
  | x :: l' => insertByPriority x (sortByPriority l')
  end.

(** [const r = [...rules].filter((x) => x.enabled).sort(...)] *)
Definition activeRules (rules : list Rule) : list Rule :=
  sortByPriority (List.filter enabled rules).

Section OnHost.

Context {host : Host}.

(** [rule.keywords.split(",").map((x) => x.trim().toLowerCase()).filter(Boolean)] *)
Definition kws (rule : Rule) : list string :=
  List.filter JS.nonEmpty
    (List.map (fun x => toLowerCase (trim x)) (JS.split "," (keywords rule))).

(** [`${t.description} ${t.account ?? ""}`.toLowerCase()] *)
Definition desc (t : Tx) : string :=
  toLowerCase (description t ++ " " ++ JS.orEmpty (account t)).

(** [kws.some((k) => desc.includes(k))] *)
Definition ruleHits (d : string) (rule : Rule) : bool :=
  existsb (fun k => JS.includes d k) (kws rule).

(** The callback of [list.map]: the [for] loop returns at the first rule
    that hits. *)
Definition categorize (r : list Rule) (t : Tx) : Tx :=
  if JS.truthy (category t) then t
  else match List.find (ruleHits (desc t)) r with
       | Some rule => withCategory t (rule_category rule)
       | None => t
       end.

(** The list [next] that [applyRules] hands to [setTx]. *)
Definition applyRules (toUpdate : list Tx) (rules : list Rule) : list Tx :=
  List.map (categorize (activeRules rules)) toUpdate.

End OnHost.

End RuleEngine.

(** ** [Number(s)] on strings *)

Module JSNumber.

Definition digitVal (c : ascii) : option Z :=
  if JS.isDigit c then Some (Z.of_nat (JS.code c) - 48) else None.

(** The value of a digit in base 16, 8 or 2, for the literals [0x..],
    [0o..] and [0b..]. *)
Definition digitValIn (base : Z) (c : ascii) : option Z :=
  let n := Z.of_nat (JS.code c) in
  let v := if (48 <=? n) && (n <=? 57) then Some (n - 48)
           else if (97 <=? n) && (n <=? 102) then Some (n - 87)
           else if (65 <=? n) && (n <=? 70) then Some (n - 55)
           else None in
  match v with
  | Some d => if d <? base then Some d else None
  | None => None
  end.

(** Reads the longest prefix of decimal digits: its value continuing [acc],
    the number of digits read added to [n], and the rest of the string. *)
Fixpoint readDigits (s : string) (acc : Z) (n : nat) : Z * nat * string :=
  match s with
  | EmptyString => (acc, n, s)
  | String c r =>
      match digitVal c with
      | Some d => readDigits r (10 * acc + d) (S n)
      | None => (acc, n, s)
      end
  end.

(** A whole string of digits in the given base, at least one. *)
Fixpoint readAllIn (base : Z) (s : string) (acc : Z) : option Z :=
  match s with
  | EmptyString => Some acc
  | String c r =>
      match digitValIn base c with
      | Some d => readAllIn base r (base * acc + d)
      | None => None
      end
  end.

Definition nonDecimal (base : Z) (s : string) : option Q :=
  match s with
  | EmptyString => None
  | _ => option_map inject_Z (readAllIn base s 0)
  end.

Definition pow10 (n : Z) : positive := Z.to_pos (10 ^ n).

(** [m * 10^e] *)
Definition scale10 (m : Q) (e : Z) : Q :=
  if 0 <=? e then (m * inject_Z (10 ^ e))%Q
  else (m / inject_Z (10 ^ (- e)))%Q.

(** ExponentPart, after the mantissa [m]: nothing, or [e]/[E], an optional
    sign and at least one digit, up to the end of the string. *)
Definition exponentPart (m : Q) (s : string) : option Q :=
  match s with
  | EmptyString => Some m
  | String c r =>
      if (Ascii.eqb c "e" || Ascii.eqb c "E")%bool then
        let '(neg, r') :=
          match r with
          | String "-" r' => (true, r')
          | String "+" r' => (false, r')
          | _ => (false, r)
          end in
        match readDigits r' 0 0 with
        | (_, O, _) => None
        | (e, S _, EmptyString) => Some (scale10 m (if neg then - e else e))
        | (_, S _, String _ _) => None
        end
      else None
  end.

(** A decimal literal without sign: digits, an optional fraction, an
    optional exponent; at least one digit in the mantissa.  Its value is
    the exact one. *)
Definition unsignedDecimal (s : string) : option Q :=
  let '(ip, ni, r1) := readDigits s 0 0 in
  let '(fp, nf, r2) :=
    match r1 with
    | String "." r => readDigits r 0 0
    | _ => (0, O, r1)
    end in
  match ni, nf with
  | O, O => None
  | _, _ =>
      exponentPart
        (Qmake (ip * 10 ^ Z.of_nat nf + fp) (pow10 (Z.of_nat nf))) r2
  end.

(** The radix a prefix [0x], [0o] or [0b] announces, in either case. *)
Definition radixOf (x : ascii) : option Z :=
  if (Ascii.eqb x "x" || Ascii.eqb x "X")%bool then Some 16
  else if (Ascii.eqb x "o" || Ascii.eqb x "O")%bool then Some 8
  else if (Ascii.eqb x "b" || Ascii.eqb x "B")%bool then Some 2
  else None.

(** A number as [Number(s)] gives it: [NaN], an infinity, or a finite
    value. *)
Inductive number : Type :=
  | NaN
  | Infinity (negative : bool)
  | Finite (q : Q).

(** From this magnitude on a value rounds to an infinity: the largest
    finite number is [2^1024 - 2^971], and half a unit above it goes
    up. *)
Definition overflow : Q := inject_Z (2 ^ 1024 - 2 ^ 970).

(** Up to this magnitude a value rounds to zero: half the smallest
    positive number, [2^-1074]. *)
Definition underflow : Q := Qmake 1 (Z.to_pos (2 ^ 1075)).

(** The number a mathematical value rounds to, as far as the embedding
    tells numbers apart: an infinity, zero, or the value itself. *)
Definition rounded (q : Q) : number :=
  if Qle_bool overflow (Qabs q) then Infinity (Qle_bool q 0)
  else if Qle_bool (Qabs q) underflow then Finite 0
  else Finite q.

Definition negate (n : number) : number :=
  match n with
  | NaN => NaN
  | Infinity b => Infinity (negb b)
  | Finite q => Finite (- q)
  end.

(** StrUnsignedDecimalLiteral: [Infinity], or a decimal literal. *)
Definition unsigned (s : string) : number :=
  if String.eqb s "Infinity" then Infinity false
  else match unsignedDecimal s with
       | Some q => rounded q
       | None => NaN
       end.

(** StringToNumber on a text without white space around it: the empty
    string is 0; a literal [0x], [0o] or [0b] takes no sign; a decimal
    literal and [Infinity] take an optional sign. *)
Definition parseTrimmed (t : string) : number :=
  match t with
  | EmptyString => Finite 0
  | String c r =>
      if Ascii.eqb c "-" then negate (unsigned r)
      else if Ascii.eqb c "+" then unsigned r
      else if Ascii.eqb c "0" then
        match r with
        | String x r' =>
            match radixOf x with
            | Some base =>
                match nonDecimal base r' with
                | Some q => rounded q
                | None => NaN
                end
            | None => unsigned t
            end
        | EmptyString => unsigned t
        end
      else unsigned t
  end.

(** [Number(s)] *)
Definition Number (s : string) : number := parseTrimmed (JS.trim s).

(** The value a record of the embedding keeps for a number: amounts are in
    [Q], so an infinite amount, which the code would store as it is, has
    no image and is outside the data model; it is read as 0. *)
Definition toQ (n : number) : Q :=
  match n with
  | Finite q => q
  | _ => 0%Q
  end.

End JSNumber.

(** ** [Date]: the part [ym] uses *)

Module JSDate.

Definition msPerDay : Z := 86400000.

Definition isLeap (y : Z) : bool :=
  (y mod 4 =? 0) && (negb (y mod 100 =? 0) || (y mod 400 =? 0)).

Definition daysInMonth (y m : Z) : Z :=
  if m =? 2 then (if isLeap y then 29 else 28)
  else if (m =? 4) || (m =? 6) || (m =? 9) || (m =? 11) then 30
  else 31.

(** Days from 1970-01-01 to the civil date [y]-[m]-[d] of the proleptic
    Gregorian calendar ([m] from 1). *)
Definition daysFromCivil (y m d : Z) : Z :=
  let y' := if m <=? 2 then y - 1 else y in
  let era := y' / 400 in
  let yoe := y' - era * 400 in
  let mp := if 2 <? m then m - 3 else m + 9 in
  let doy := (153 * mp + 2) / 5 + d - 1 in
  let doe := yoe * 365 + yoe / 4 - yoe / 100 + doy in
  era * 146097 + doe - 719468.

(** The civil year and month (from 1) of a day number. *)
Definition civilFromDays (z : Z) : Z * Z :=
  let z' := z + 719468 in
  let era := z' / 146097 in
  let doe := z' - era * 146097 in
  let yoe := (doe - doe / 1460 + doe / 36524 - doe / 146096) / 365 in
  let doy := doe - (365 * yoe + yoe / 4 - yoe / 100) in
  let mp := (5 * doy + 2) / 153 in
  let m := if mp <? 10 then mp + 3 else mp - 9 in
  (if m <=? 2 then yoe + era * 400 + 1 else yoe + era * 400, m).

(** A full match of a string against a sequence of character classes:
    the regular expressions of the source are sequences of [\d] and
    literal characters between [^] and [$]. *)
Inductive cls : Type := D | Lit (c : ascii).

Fixpoint test (re : list cls) (s : string) : bool :=
  match re, s with
  | [], EmptyString => true
  | D :: re', String c s' => JS.isDigit c && test re' s'
  | Lit a :: re', String c s' => Ascii.eqb a c && test re' s'
  | _, _ => false
  end.

(** [/^\d{4}-\d{2}-\d{2}$/] *)
Definition isoRe : list cls := [D; D; D; D; Lit "-"; D; D; Lit "-"; D; D].

(** [/^\d{2}\/\d{2}\/\d{4}$/] *)
Definition brRe : list cls := [D; D; Lit "/"; D; D; Lit "/"; D; D; D; D].

(** The value of a string of decimal digits. *)
Definition digitsVal (s : string) : Z :=
  let '(v, _, _) := JSNumber.readDigits s 0 0 in v.

(** [new Date(s)] for the date-only form [YYYY-MM-DD], which the language
    reads as midnight UTC: the time value in milliseconds, [None] for
    Invalid Date.  A month outside 1..12 or a day outside the month is
    invalid (engines differ on a day such as 30 February).  What an engine
    makes of any other string is implementation-defined; the model answers
    Invalid Date. *)
Definition parse (s : string) : option Z :=
  if test isoRe s then
    match JS.split "-" s with
    | [ys; ms; ds] =>
        let y := digitsVal ys in
        let m := digitsVal ms in
        let d := digitsVal ds in
        if (1 <=? m) && (m <=? 12) && (1 <=? d) && (d <=? daysInMonth y m)
        then Some (daysFromCivil y m d * msPerDay)
        else None
    | _ => None
    end
  else None.

(** [getFullYear()] and [getMonth()] read the local time [t + LocalTZA];
    [tza] is the offset of the host's zone from UTC in milliseconds. *)
Definition getFullYear (tza t : Z) : Z := fst (civilFromDays ((t + tza) / msPerDay)).
Definition getMonth (tza t : Z) : Z := snd (civilFromDays ((t + tza) / msPerDay)) - 1.

(** [String(n)] for an integer. *)
Fixpoint digitsOf (fuel : nat) (n : Z) (acc : string) : string :=
  match fuel with
  | O => acc
  | S fuel' =>
      let acc' := String (ascii_of_nat (Z.to_nat (48 + n mod 10))) acc in
      if n <? 10 then acc' else digitsOf fuel' (n / 10) acc'
  end.

Definition toString (n : Z) : string :=
  if n <? 0 then String "-" (digitsOf (S (Z.to_nat (Z.log2 (- n)))) (- n) EmptyString)
  else digitsOf (S (Z.to_nat (Z.log2 n))) n EmptyString.

(** [s.padStart(2, "0")] *)
Definition padStart2 (s : string) : string :=
  match s with
  | EmptyString => "00"
  | String c EmptyString => String "0" s
  | _ => s
  end.

End JSDate.

(** [function ym(date)]: with the zone offset of the host made explicit. *)
Definition ym (tza : Z) (date : string) : string :=
  match JSDate.parse date with
  | Some t =>
      JSDate.toString (JSDate.getFullYear tza t) ++ "-" ++
      JSDate.padStart2 (JSDate.toString (JSDate.getMonth tza t + 1))
  | None => "NaN-NaN"
  end.

(** ** Normaliser: the row callback of [onImportCSV] *)

Module Normalizer.

(** [a || b] on [string | undefined]. *)
Definition orElse (a b : option string) : option string :=
  if JS.truthy a then a else b.

(** [s.replace(/\./g, "")]: every occurrence of the character goes. *)
Fixpoint removeAll (c : ascii) (s : string) : string :=
  match s with
  | EmptyString => EmptyString
  | String x r => if Ascii.eqb x c then removeAll c r else String x (removeAll c r)
  end.

(** [s.replace(",", ".")]: a string pattern replaces the first occurrence
    only. *)
Fixpoint replaceFirst (c d : ascii) (s : string) : string :=
  match s with
  | EmptyString => EmptyString
  | String x r => if Ascii.eqb x c then String d r else String x (replaceFirst c d r)
  end.

(** The rewriting of the trimmed amount before [Number] reads it. *)
Definition decimalPoint (s : string) : string :=
  if JS.hasChar s "." && JS.hasChar s "," then
    replaceFirst "," "." (removeAll "." s)
  else if JS.hasChar s "," && negb (JS.hasChar s ".") then
    replaceFirst "," "." s
  else s.

(** [amt], from [rawAmount]: [isNaN(n) ? 0 : n], an infinity included. *)
Definition normAmount (rawAmount : option string) : JSNumber.number :=
  match rawAmount with
  | None => JSNumber.Finite 0
  | Some r =>
      match JSNumber.Number (decimalPoint (JS.trim r)) with
      | JSNumber.NaN => JSNumber.Finite 0
      | n => n
      end
  end.

(** An element of the array pattern [[dd, mm, yyyy]], as the template
    literal prints it. *)
Definition part (l : list string) (i : nat) : string := nth i l "undefined".

Section Host.

(** [new Date().toISOString().slice(0, 10)] *)
Variable today : string.

(** [new Date(s)] for a string that is neither [YYYY-MM-DD] nor
    [DD/MM/YYYY]: [None] when [isNaN(tmp.getTime())], else
    [tmp.toISOString().slice(0, 10)].  Which strings an engine accepts
    here is implementation-defined. *)
Variable genericDate : string -> option string.

(** [d], from [rawDate]. *)
Definition normDate (rawDate : option string) : string :=
  if JS.truthy rawDate then
    let s := JS.trim (JS.orEmpty rawDate) in
    if JSDate.test JSDate.isoRe s then s
    else if JSDate.test JSDate.brRe s then
      let p := JS.split "/" s in
      part p 2 ++ "-" ++ part p 1 ++ "-" ++ part p 0
    else match genericDate s with
         | None => today
         | Some iso => iso
         end
  else today.

(** The callback of [rows.map]; [id] is the value of [uid()]. *)
Definition parseRow (id : string) (row : gmap string string) : Tx :=
  let rawDate := orElse (orElse (orElse (row !! "date") (row !! "data")) (row !! "Date")) (row !! "Data") in
  let rawAmount := orElse (orElse (orElse (row !! "amount") (row !! "valor")) (row !! "Amount")) (row !! "Valor") in
  let rawDesc :=
    orElse (orElse (orElse (orElse (orElse (row !! "description") (row !! "descricao")) (row !! "Details"))
                (row !! "Descrição")) (row !! "Descricao")) (row !! "History") in
  let rawCat := orElse (orElse (orElse (row !! "category") (row !! "categoria")) (row !! "Category")) (row !! "Categoria") in
  {| tx_id := id;
     date := normDate rawDate;
     amount := JSNumber.toQ (normAmount rawAmount);
     description := if JS.truthy rawDesc then JS.orEmpty rawDesc else "(sem descrição)";
     account := None;
     method := None;
     category := if JS.truthy rawCat then rawCat else None;
     raw := Some (JObj (List.map (fun kv => (fst kv, JStr (snd kv))) (map_to_list row))) |}.

End Host.

End Normalizer.

(** ** Aggregator *)

Module Aggregator.

Definition Qltb (x y : Q) : bool := negb (Qle_bool y x).

(** [tx.filter((t) => ym(t.date) === month)] *)
Definition txMonth (tza : Z) (tx : list Tx) (month : string) : list Tx :=
  List.filter (fun t => String.eqb (ym tza (date t)) month) tx.

(** [txMonth.filter((t) => t.amount > 0).reduce((a, b) => a + b.amount, 0)] *)
Definition receitaMes (txMonth : list Tx) : Q :=
  fold_left (fun a b => (a + amount b)%Q)
    (List.filter (fun t => Qltb 0 (amount t)) txMonth) 0%Q.

(** [txMonth.filter((t) => t.amount < 0).reduce((a, b) => a + Math.abs(b.amount), 0)] *)
Definition despesaMes (txMonth : list Tx) : Q :=
  fold_left (fun a b => (a + Qabs (amount b))%Q)
    (List.filter (fun t => Qltb (amount t) 0) txMonth) 0%Q.

Definition resultadoMes (txMonth : list Tx) : Q :=
  (receitaMes txMonth - despesaMes txMonth)%Q.

(** [t.category || "Outros"] *)
Definition bucket (t : Tx) : string :=
  if JS.truthy (category t) then JS.orEmpty (category t) else "Outros".

(** What a property of the object [map] holds: a number, or the string
    that [+] makes when its left operand is no number.  The text of such a
    string starts with the host's rendering of an inherited function and
    is not modelled. *)
Inductive Cell : Type :=
  | Num (q : Q)
  | Text.

(** [map[c]] on an object created by [{}]: an own property, else the
    member of [Object.prototype] of that name, else [undefined]. *)
Inductive Read : Type :=
  | Own (v : Cell)
  | Inherited
  | Undefined.

Definition get (map : gmap string Cell) (c : string) : Read :=
  match map !! c with
  | Some v => Own v
  | None => if JS.inherited c then Inherited else Undefined
  end.

(** [map[c] = v] for a [v] that is no object: an own property is written
    or created, except that without an own property [__proto__] the
    assignment goes to the setter of [Object.prototype], which ignores
    such a value. *)
Definition set (map : gmap string Cell) (c : string) (v : Cell) : gmap string Cell :=
  match map !! c with
  | Some _ => <[c := v]> map
  | None => if String.eqb c "__proto__" then map else <[c := v]> map
  end.

(** [map[c] || 0] on numbers: an absent key and a zero both give 0. *)
Definition orZero (v : option Q) : Q :=
  match v with
  | Some q => if Qeq_bool q 0 then 0%Q else q
  | None => 0%Q
  end.

(** The body of the [for] loop of [gastoPorCategoria],
    [map[c] = (map[c] || 0) + Math.abs(t.amount)]: a function, the
    prototype and a string are truthy, and [+] on them makes a string. *)
Definition gastoStep (map : gmap string Cell) (t : Tx) : gmap string Cell :=
  if Qltb (amount t) 0 then
    let c := bucket t in
    match get map c with
    | Undefined => set map c (Num (orZero None + Qabs (amount t))%Q)
    | Own (Num q) => set map c (Num (orZero (Some q) + Qabs (amount t))%Q)
    | Own Text => set map c Text
    | Inherited => set map c Text
    end
  else map.

Definition gastoPorCategoria (txMonth : list Tx) : gmap string Cell :=
  fold_left gastoStep txMonth ∅.

End Aggregator.

(** ** Budget evaluator: [budgetRows] *)

Module BudgetEval.

Definition DEFAULT_CATEGORIES : list string :=
  [ "Moradia"; "Alimentação"; "Transporte"; "Saúde"; "Educação"; "Lazer";
    "Compras Pessoais"; "Assinaturas e Serviços"; "Impostos/Taxas";
    "Emergências/Imprevistos"; "Investimentos/Reserva"; "Outros" ].

Inductive Status : Type := verde | amarelo | vermelho | cinza.

Record Row : Type := mkRow {
  categoria : string;
  aloc : Q;
  orcado : Q;
  gasto : Q;
  variancia : Q;
  cumprimento : Q;
  status : Status
}.

(** [v ?? 0] *)
Definition orDefault0 (v : option Q) : Q :=
  match v with Some q => q | None => 0%Q end.

(** The chain of [if]s that sets [status]. *)
Definition statusOf (orcado gasto cumprimento : Q) : Status :=
  if Qeq_bool orcado 0 && Qeq_bool gasto 0 then cinza
  else if Aggregator.Qltb cumprimento 0.8 then verde
  else if Qle_bool cumprimento 1 then amarelo
  else vermelho.

(** The callback of [DEFAULT_CATEGORIES.map]. *)
Definition budgetRow (budget : gmap string Q) (receitaMes : Q)
    (gastoPorCategoria : gmap string Q) (c : string) : Row :=
  let aloc := orDefault0 (budget !! c) in
  let orcado := (receitaMes * aloc)%Q in
  let gasto := orDefault0 (gastoPorCategoria !! c) in
  let cumprimento := if Aggregator.Qltb 0 orcado then (gasto / orcado)%Q else 0%Q in
  {| categoria := c; aloc := aloc; orcado := orcado; gasto := gasto;
     variancia := (orcado - gasto)%Q; cumprimento := cumprimento;
     status := statusOf orcado gasto cumprimento |}.

Definition budgetRows (budget : gmap string Q) (receitaMes : Q)
    (gastoPorCategoria : gmap string Q) : list Row :=
  List.map (budgetRow budget receitaMes gastoPorCategoria) DEFAULT_CATEGORIES.

End BudgetEval.

(** ** Backup: the handlers of "Baixar backup" and "Restaurar backup" *)

Module Backup.








(** [data.k] on a parsed value that is not [null]: an own property of an
    object, [undefined] ([None]) otherwise.  The keys of a parsed object
    are distinct. *)
Fixpoint assoc (k : string) (props : list (string * json)) : option json :=
  match props with
  | [] => None
  | (k', v) :: rest => if String.eqb k k' then Some v else assoc k rest
  end.

Definition get (data : json) (k : string) : option json :=
  match data with
  | JObj props => assoc k props
  | _ => None
  end.

(** [Boolean(v)] *)
Definition truthy (v : option json) : bool :=
  match v with
  | None => false
  | Some JNull => false
  | Some (JBool b) => b
  | Some (JNum q) => negb (Qeq_bool q 0)
  | Some (JStr s) => JS.nonEmpty s
  | Some (JArr _) => true
  | Some (JObj _) => true
  end.

(** [if (data.k) set(data.k)] *)
Definition pick (data : json) (k : string) (old : json) : json :=
  match get data k with
  | Some v => if truthy (Some v) then v else old
  | None => old
  end.


End Backup.

(** ** State handlers: [removeTx], [updateTx], [setBudgetPct], [addRule] *)

Module Handlers.

(** [tx.filter((t) => t.id !== id)], the list [removeTx] hands to [setTx]. *)
Definition removeTx (tx : list Tx) (id : string) : list Tx :=
  List.filter (fun t => negb (String.eqb (tx_id t) id)) tx.

(** [Partial<Tx>]: every key may be missing ([None]); a key of an optional
    field may also be there with the value [undefined] ([Some None]). *)
Record Patch : Type := mkPatch {
  p_id : option string;
  p_date : option string;
  p_amount : option Q;
  p_description : option string;
  p_account : option (option string);
  p_method : option (option string);
  p_category : option (option string);
  p_raw : option (option json)
}.

(** [v] from the patch when its key is there, else the field of [t]. *)
Definition over {A : Type} (old : A) (new : option A) : A :=
  match new with Some v => v | None => old end.

(** [{ ...t, ...patch }] *)
Definition spread (t : Tx) (patch : Patch) : Tx :=
  {| tx_id := over (tx_id t) (p_id patch);
     date := over (date t) (p_date patch);
     amount := over (amount t) (p_amount patch);
     description := over (description t) (p_description patch);
     account := over (account t) (p_account patch);
     method := over (method t) (p_method patch);
     category := over (category t) (p_category patch);
     raw := over (raw t) (p_raw patch) |}.

(** [tx.map((t) => (t.id === id ? { ...t, ...patch } : t))] *)
Definition updateTx (tx : list Tx) (id : string) (patch : Patch) : list Tx :=
  List.map (fun t => if String.eqb (tx_id t) id then spread t patch else t) tx.

(** The patches the table builds: [{ description }], [{ category }],
    [{ amount }]. *)
Definition emptyPatch : Patch :=
  mkPatch None None None None None None None None.

Definition descriptionPatch (d : string) : Patch :=
  mkPatch None None None (Some d) None None None None.

Definition categoryPatch (c : string) : Patch :=
  mkPatch None None None None None None (Some (Some c)) None.

Definition amountPatch (a : Q) : Patch :=
  mkPatch None None (Some a) None None None None None.

(** [const DEFAULT_BUDGET] *)
Definition DEFAULT_BUDGET : gmap string Q :=
  list_to_map
    [ ("Moradia", 0.3%Q); ("Alimentação", 0.15%Q); ("Transporte", 0.1%Q);
      ("Saúde", 0.08%Q); ("Educação", 0.05%Q); ("Lazer", 0.08%Q);
      ("Compras Pessoais", 0.06%Q); ("Assinaturas e Serviços", 0.05%Q);
      ("Impostos/Taxas", 0.05%Q); ("Emergências/Imprevistos", 0.04%Q);
      ("Investimentos/Reserva", 0.04%Q); ("Outros", 0%Q) ].

(** [{ ...budget, [cat]: Math.max(0, Math.min(1, pct)) }] *)
Definition setBudgetPct (budget : gmap string Q) (cat : string) (pct : Q) : gmap string Q :=
  <[cat := Qmax 0 (Qmin 1 pct)]> budget.

(** [rules.at(-1)?.priority ?? 0] *)
Definition lastPriority (rules : list Rule) : Z :=
  List.last (List.map priority rules) 0.

(** [addRule]; [id] is the value of [uid()]. *)
Definition addRule (id : string) (rules : list Rule) : list Rule :=
  (rules ++
   [ {| rule_id := id; keywords := "ifood, mcdonalds";
        rule_category := "Alimentação"; enabled := true;
        priority := lastPriority rules + 10 |} ])%list.

(** [rules.filter((x) => x.id !== r.id)], the delete button of the rules
    table. *)
Definition removeRule (rules : list Rule) (id : string) : list Rule :=
  List.filter (fun x => negb (String.eqb (rule_id x) id)) rules.

Section ImportCSV.

Context {host : Host}.

Variable today : string.
Variable genericDate : string -> option string.

(** The value of the [i]-th call of [uid()] during the import. *)
Variable uid : nat -> string.



End ImportCSV.

End Handlers.

(** ** Derived view: the daily series *)

Module Views.




End Views.

(** ** The wording of the specification, where the code differs *)

Module Spec.

(** "description concatenated with its account (empty string if absent),
    lower-cased" *)
Definition desc {host : Host} (t : Tx) : string :=
  toLowerCase (description t ++ JS.orEmpty (account t)).

(** The rule engine with that text in place of [RuleEngine.desc]. *)
Definition categorize {host : Host} (r : list Rule) (t : Tx) : Tx :=
  if JS.truthy (category t) then t
  else match List.find (RuleEngine.ruleHits (desc t)) r with
       | Some rule => withCategory t (rule_category rule)
       | None => t
       end.

(** "replaces each collection when its key is present in the payload,
    leaves it untouched when its key is absent" *)
Definition pick (data : json) (k : string) (old : json) : json :=
  match Backup.get data k with
  | Some v => v
  | None => old
  end.

(** "otherwise it is parsed as a plain decimal number; an unparseable
    amount normalizes to 0": a decimal literal with an optional sign. *)
Definition decimal (t : string) : option Q :=
  match t with
  | String "-" r => option_map Qopp (JSNumber.unsignedDecimal r)
  | String "+" r => JSNumber.unsignedDecimal r
  | _ => JSNumber.unsignedDecimal t
  end.

Definition normAmount (rawAmount : option string) : Q :=
  match rawAmount with
  | None => 0%Q
  | Some r =>
      match decimal (Normalizer.decimalPoint (JS.trim r)) with
      | Some q => q
      | None => 0%Q
      end
  end.

(** "(a) a string exactly matching YYYY-MM-DD is kept as-is; (b) a string
    exactly matching DD/MM/YYYY is rearranged": the patterns are tried on
    the raw string. *)
Definition normDate (today : string) (genericDate : string -> option string)
    (rawDate : option string) : string :=
  match rawDate with
  | None => today
  | Some raw =>
      if JSDate.test JSDate.isoRe raw then raw
      else if JSDate.test JSDate.brRe raw then
        let p := JS.split "/" raw in
        Normalizer.part p 2 ++ "-" ++ Normalizer.part p 1 ++ "-" ++ Normalizer.part p 0
      else match genericDate raw with
           | None => today
           | Some iso => iso
           end
  end.

(** "the subset whose ISO date's year-month equals the target month":
    the first seven characters of [YYYY-MM-DD]. *)
Definition yearMonth (date : string) : string := String.substring 0 7 date.

Definition monthTransactions (tx : list Tx) (month : string) : list Tx :=
  List.filter (fun t => String.eqb (yearMonth (date t)) month) tx.

End Spec.

(** ** Vocabulary of the statements *)

(** [k] occurs in [s] as a contiguous substring. *)
Definition Substring (k s : string) : Prop :=
  exists pre post : string, s = pre ++ k ++ post.

(** A rule hits a text when one of the comma-separated pieces of its
    [keywords], trimmed and lower-cased, is not empty and occurs in the
    text. *)
Definition Hits {host : Host} (text : string) (rule : Rule) : Prop :=
  exists piece : string,
    In piece (JS.split "," (keywords rule)) /\
    toLowerCase (trim piece) <> "" /\
    Substring (toLowerCase (trim piece)) text.

Definition byPriority (a b : Rule) : Prop := priority a <= priority b.

Definition hasPriority (p : Z) (r : Rule) : bool := priority r =? p.



Definition expenseOf (t : Tx) : Q :=
  if Qlt_le_dec (amount t) 0 then (- amount t)%Q else 0%Q.

(** The category a transaction counts under: its own when it is a
    non-empty string, the catch-all otherwise. *)
Definition CountsUnder (t : Tx) (c : string) : Prop :=
  match category t with
  | Some (String a s) => c = String a s
  | _ => c = "Outros"
  end.

Definition countsUnder (t : Tx) (c : string) : bool :=
  match category t with
  | Some (String a s) => String.eqb (String a s) c
  | _ => String.eqb "Outros" c
  end.

(** The absolute amounts of the expenses that count under [c], added from
    0 in the order of the list. *)
Definition spendIn (c : string) (l : list Tx) : Q :=
  fold_left (fun x t => (x + Qabs (amount t))%Q)
    (List.filter (fun t => Aggregator.Qltb (amount t) 0 && countsUnder t c) l) 0%Q.

(** Every property of the map holds a number. *)
Definition Numeric (m : gmap string Aggregator.Cell) : Prop :=
  forall k v, m !! k = Some v -> exists q, v = Aggregator.Num q.

(** The number under a key, 0 when there is none. *)
Definition numberAt (m : gmap string Aggregator.Cell) (c : string) : Q :=
  match m !! c with
  | Some (Aggregator.Num q) => q
  | _ => 0%Q
  end.

(** Characters of a string. *)
Definition Contains (c : ascii) (s : string) : Prop :=
  In c (list_ascii_of_string s).

(** A character of one byte that is no white space. *)
Definition plain (c : ascii) : bool :=
  Nat.ltb (JS.code c) 128 && negb (JS.isSpace c).

(** [s'] is [s] without its occurrences of [c]. *)
Definition Stripped (c : ascii) (s' s : string) : Prop :=
  list_ascii_of_string s' =
  List.filter (fun x => negb (Ascii.eqb x c)) (list_ascii_of_string s).

(** [l.join(sep)] for a one-character separator. *)
Fixpoint join (sep : ascii) (l : list string) : string :=
  match l with
  | [] => EmptyString
  | [s] => s
  | s :: l' => s ++ String sep (join sep l')
  end.

Definition startsWithDigit (s : string) : bool :=
  match s with
  | String c _ => JS.isDigit c
  | EmptyString => false
  end.

(** [s] is [n] decimal digits. *)
Definition Digits (n : nat) (s : string) : Prop :=
  String.length s = n /\
  Forall (fun c => JS.isDigit c = true) (list_ascii_of_string s).

Definition IsoShape (s : string) : Prop :=
  exists y m d, Digits 4 y /\ Digits 2 m /\ Digits 2 d /\ s = y ++ "-" ++ m ++ "-" ++ d.

Definition BrShape (s : string) : Prop :=
  exists y m d, Digits 4 y /\ Digits 2 m /\ Digits 2 d /\ s = d ++ "/" ++ m ++ "/" ++ y.


(** Sample data of the examples. *)
Definition sampleTx (d : string) (acc : option string) (cat : option string) : Tx :=
  {| tx_id := "t1"; date := "2025-09-02"; amount := (-200)%Q; description := d;
     account := acc; method := None; category := cat; raw := None |}.

Definition sampleRule (k c : string) (p : Z) : Rule :=
  {| rule_id := "r1"; keywords := k; rule_category := c; enabled := true; priority := p |}.

(** The two transactions of the specification's aggregator example. *)
Definition salary : Tx :=
  {| tx_id := "a"; date := "2025-09-01"; amount := 1000%Q; description := "salary";
     account := None; method := None; category := None; raw := None |}.

Definition groceries : Tx :=
  {| tx_id := "b"; date := "2025-09-02"; amount := (-200)%Q; description := "market";
     account := None; method := None; category := Some "Food"; raw := None |}.

(** The text [1.234,56] followed by a no-break space, U+00A0. *)
Definition nbspAmount : string :=
  "1.234,56" ++ String (ascii_of_nat 194) (String (ascii_of_nat 160) "").

(** The text [15/09/2025] after a no-break space. *)
Definition nbspDate : string :=
  String (ascii_of_nat 194) (String (ascii_of_nat 160) "15/09/2025").

(** The offset of a host three hours west of UTC (America/Sao_Paulo). *)
Definition utcMinus3 : Z := -3 * 3600000.

(** The date-only ISO string of a civil date. *)
Definition isoDate (y m d : Z) : string :=
  JSDate.toString y ++ "-" ++ JSDate.padStart2 (JSDate.toString m) ++ "-" ++
  JSDate.padStart2 (JSDate.toString d).

(** A date of the calendar with a four-digit year. *)
Definition ValidDate (y m d : Z) : Prop :=
  1000 <= y <= 9999 /\ 1 <= m <= 12 /\ 1 <= d <= JSDate.daysInMonth y m.

(** [s] is [n] decimal digits that read as [v]: the check behind the
    enumerations of [toString]. *)
Definition digitString (n : nat) (s : string) (v : Z) : bool :=
  Nat.eqb (String.length s) n &&
  forallb JS.isDigit (list_ascii_of_string s) &&
  (JSDate.digitsVal s =? v).

(** A fraction between 0 and 1. *)
Definition UnitFraction (q : Q) : Prop := (0 <= q /\ q <= 1)%Q.




(** Priorities that grow strictly along the list, as [addRule] builds
    them. *)
Definition Ascending (rules : list Rule) : Prop :=
  StronglySorted (fun a b => priority a < priority b) rules.

(** A rule that can fire: enabled, with a keyword left after trimming. *)
Definition live {host : Host} (r : Rule) : bool :=
  enabled r && match RuleEngine.kws r with [] => false | _ :: _ => true end.

(** Every character is a decimal digit. *)
Definition allDigits (s : string) : bool :=
  forallb JS.isDigit (list_ascii_of_string s).

(** Every character is a decimal digit or the separator [.]. *)
Definition digitsOrDots (s : string) : bool :=
  forallb (fun c => JS.isDigit c || Ascii.eqb c ".") (list_ascii_of_string s).

(** The number a Brazilian amount text denotes: the digits of the integer
    part, and the digits after the comma as a decimal fraction. *)
Definition decimalValue (ip fp : string) : Q :=
  (inject_Z (JSDate.digitsVal ip) +
   inject_Z (JSDate.digitsVal fp) / inject_Z (10 ^ Z.of_nat (String.length fp)))%Q.

(** * Properties *)

(** Takes a hypothesis [Digits n s] apart into the characters of [s]. *)
Ltac digits H :=
  let Hl := fresh "Hl" in
  let Hf := fresh "Hf" in
  destruct H as [Hl Hf];
  repeat match goal with
         | s : string |- _ =>
             match type of Hl with
             | context [String.length s] =>
                 destruct s; cbn [String.length] in Hl;
                 try discriminate Hl; try injection Hl as Hl
             end
         end;
  cbn [list_ascii_of_string] in Hf;
  repeat match goal with
         | F : Forall _ (_ :: _) |- _ => inversion F; subst; clear F
         end.

(** ** String built-ins *)

Section StringFacts.

Example builtins_on_samples :
  JS.toLowerCase "Uber *TRIP 42" = "uber *trip 42" /\
  JS.trim " a b  " = "a b" /\
  JS.split "," "ifood, uber,,x" = ["ifood"; " uber"; ""; "x"] /\
  JS.split "," "" = [""] /\
  JS.includes "pagamento uber trip" "uber" = true /\
  JS.includes "pagamento" "uber" = false /\
  JS.includes "abc" "" = true.
Proof. repeat split. Qed.

Lemma startsWith_spec (s p : string) :
  JS.startsWith s p = true <-> exists post, s = p ++ post.
Proof.
  revert s. induction p as [|a p IH]; intros s; simpl.
  - split; [intros _; exists s; reflexivity | reflexivity].
  - destruct s as [|b s]; simpl.
    + split; [discriminate | intros [post H]; discriminate].
    + rewrite andb_true_iff, IH. split.
      * intros [Hab [post ->]]. apply Ascii.eqb_eq in Hab. subst b.
        exists post. reflexivity.
      * intros [post H]. injection H as -> ->. split.
        -- apply Ascii.eqb_refl.
        -- exists post. reflexivity.
Qed.

Lemma includes_spec (s k : string) :
  JS.includes s k = true <-> Substring k s.
Proof.
  unfold Substring. induction s as [|c s IH].
  - simpl. rewrite orb_false_r, startsWith_spec. split.
    + intros [post H]. exists "", post. exact H.
    + intros [pre [post H]]. destruct pre as [|x pre]; [|discriminate].
      exists post. exact H.
  - cbn [JS.includes]. rewrite orb_true_iff, startsWith_spec, IH. split.
    + intros [[post H] | [pre [post H]]].
      * exists "", post. exact H.
      * exists (String c pre), post. simpl. rewrite H. reflexivity.
    + intros [pre [post H]]. destruct pre as [|x pre].
      * left. exists post. exact H.
      * right. simpl in H. injection H as _ H. exists pre, post. exact H.
Qed.

(** [split] cuts at every separator and nowhere else: the pieces hold no
    separator, and joined by it they give the string back. *)
Lemma split_pieces (sep : ascii) (s : string) :
  join sep (JS.split sep s) = s /\
  Forall (fun piece => ~ Contains sep piece) (JS.split sep s) /\
  JS.split sep s <> [].
Proof.
  induction s as [|c r (IHj & IHf & IHn)]; cbn [JS.split].
  - repeat split; [repeat constructor; intros [] | discriminate].
  - destruct (Ascii.eqb c sep) eqn:E.
    + apply Ascii.eqb_eq in E. subst c. repeat split.
      * cbn [join]. destruct (JS.split sep r) as [|h t]; [congruence|].
        rewrite IHj. reflexivity.
      * constructor; [intros [] | exact IHf].
      * discriminate.
    + destruct (JS.split sep r) as [|h t]; [congruence|].
      repeat split.
      * cbn [join] in *. destruct t; cbn [String.append]; rewrite <- IHj; reflexivity.
      * inversion IHf as [|? ? Hh Ht]; subst. constructor; [|exact Ht].
        unfold Contains. cbn [list_ascii_of_string In]. intros [Hc | Hin].
        -- subst c. rewrite Ascii.eqb_refl in E. discriminate.
        -- exact (Hh Hin).
      * discriminate.
Qed.

Lemma nonEmpty_true (s : string) : JS.nonEmpty s = true <-> s <> "".
Proof. destruct s; simpl; split; congruence. Qed.

End StringFacts.

(** ** Rule engine *)

Section RuleEngineFacts.

Import RuleEngine.

Context {host : Host}.

Lemma insertByPriority_perm (x : Rule) (l : list Rule) :
  Permutation (x :: l) (insertByPriority x l).
Proof.
  induction l as [|y l IH]; simpl.
  - apply Permutation_refl.
  - destruct (priority x <=? priority y).
    + apply Permutation_refl.
    + eapply perm_trans; [apply perm_swap | apply perm_skip, IH].
Qed.

Lemma sortByPriority_perm (l : list Rule) : Permutation l (sortByPriority l).
Proof.
  induction l as [|x l IH]; simpl.
  - apply perm_nil.
  - eapply perm_trans; [apply perm_skip, IH | apply insertByPriority_perm].
Qed.

Lemma insertByPriority_sorted (x : Rule) (l : list Rule) :
  StronglySorted byPriority l -> StronglySorted byPriority (insertByPriority x l).
Proof.
  induction 1 as [|y l Hs IH Hy]; simpl.
  - constructor; constructor.
  - destruct (priority x <=? priority y) eqn:E.
    + apply Z.leb_le in E. constructor; [constructor; assumption|].
      constructor; [exact E|].
      eapply List.Forall_impl; [|exact Hy]. unfold byPriority. intros; lia.
    + apply Z.leb_gt in E. constructor; [exact IH|].
      eapply Permutation_Forall; [apply insertByPriority_perm|].
      constructor; [unfold byPriority; lia | exact Hy].
Qed.

Lemma sortByPriority_sorted (l : list Rule) : StronglySorted byPriority (sortByPriority l).
Proof.
  induction l as [|x l IH]; simpl.
  - constructor.
  - apply insertByPriority_sorted, IH.
Qed.

(** Insertion never carries a rule past one of its own priority. *)
Lemma insertByPriority_stable (p : Z) (x : Rule) (l : list Rule) :
  List.filter (hasPriority p) (insertByPriority x l) = List.filter (hasPriority p) (x :: l).
Proof.
  induction l as [|y l IH]; [reflexivity|].
  cbn [insertByPriority]. destruct (priority x <=? priority y) eqn:E; [reflexivity|].
  apply Z.leb_gt in E. cbn [List.filter] in *. rewrite IH.
  unfold hasPriority.
  destruct (priority x =? p) eqn:Ex, (priority y =? p) eqn:Ey; try reflexivity.
  apply Z.eqb_eq in Ex, Ey. lia.
Qed.

Lemma sortByPriority_stable (p : Z) (l : list Rule) :
  List.filter (hasPriority p) (sortByPriority l) = List.filter (hasPriority p) l.
Proof.
  induction l as [|x l IH]; [reflexivity|].
  cbn [sortByPriority]. rewrite insertByPriority_stable.
  cbn [List.filter]. rewrite IH. reflexivity.
Qed.

(** In a list sorted by priority, the first rule of priority [p] is the
    head when the head has priority [p]; when the list has such a rule at
    all, the head's priority is at most [p]. *)
Lemma sorted_head_le (a : Rule) (l : list Rule) (p : Z) :
  StronglySorted byPriority (a :: l) ->
  List.filter (hasPriority p) (a :: l) <> [] -> priority a <= p.
Proof.
  intros Hs Hne. inversion Hs as [|? ? _ Hall]; subst.
  cbn [List.filter] in Hne. unfold hasPriority at 1 in Hne.
  destruct (priority a =? p) eqn:E.
  - apply Z.eqb_eq in E. lia.
  - destruct (List.filter (hasPriority p) l) as [|b rest] eqn:F; [congruence|].
    assert (Hb : In b (List.filter (hasPriority p) l)) by (rewrite F; left; reflexivity).
    apply filter_In in Hb as [Hb Hp]. unfold hasPriority in Hp. apply Z.eqb_eq in Hp.
    rewrite List.Forall_forall in Hall. specialize (Hall b Hb). unfold byPriority in Hall. lia.
Qed.

Lemma hasPriority_self (r : Rule) : hasPriority (priority r) r = true.
Proof. apply Z.eqb_refl. Qed.

(** Sortedness and stability determine the result: every stable sort by
    priority returns the list that [sortByPriority] returns. *)
Lemma stable_sorted_unique (l1 l2 : list Rule) :
  StronglySorted byPriority l1 -> StronglySorted byPriority l2 ->
  (forall p, List.filter (hasPriority p) l1 = List.filter (hasPriority p) l2) ->
  l1 = l2.
Proof.
  revert l2. induction l1 as [|a l1 IH]; intros l2 H1 H2 Heq.
  - destruct l2 as [|b l2]; [reflexivity|].
    specialize (Heq (priority b)). cbn [List.filter] in Heq.
    rewrite hasPriority_self in Heq. discriminate.
  - destruct l2 as [|b l2].
    + specialize (Heq (priority a)). cbn [List.filter] in Heq.
      rewrite hasPriority_self in Heq. discriminate.
    + assert (Hab : priority b <= priority a).
      { apply (sorted_head_le b l2 (priority a) H2). rewrite <- Heq.
        cbn [List.filter]. rewrite hasPriority_self. discriminate. }
      assert (Hba : priority a <= priority b).
      { apply (sorted_head_le a l1 (priority b) H1). rewrite Heq.
        cbn [List.filter]. rewrite hasPriority_self. discriminate. }
      assert (Hp : priority a = priority b) by lia.
      pose proof (Heq (priority a)) as Hhead. cbn [List.filter] in Hhead.
      rewrite hasPriority_self in Hhead. rewrite Hp in Hhead.
      rewrite hasPriority_self in Hhead. injection Hhead as -> _.
      f_equal. apply IH.
      * inversion H1; assumption.
      * inversion H2; assumption.
      * intros p. specialize (Heq p). cbn [List.filter] in Heq.
        destruct (hasPriority p b); [injection Heq as Heq|]; exact Heq.
Qed.

Lemma sortByPriority_unique (l l' : list Rule) :
  StronglySorted byPriority l' ->
  (forall p, List.filter (hasPriority p) l' = List.filter (hasPriority p) l) ->
  l' = sortByPriority l.
Proof.
  intros Hs Hst. apply stable_sorted_unique; [exact Hs | apply sortByPriority_sorted |].
  intros p. rewrite Hst, sortByPriority_stable. reflexivity.
Qed.

Lemma ruleHits_spec (text : string) (rule : Rule) :
  ruleHits text rule = true <-> Hits text rule.
Proof.
  unfold ruleHits, Hits, kws. rewrite existsb_exists. split.
  - intros [k [Hin Hk]]. apply filter_In in Hin as [Hin Hne].
    apply in_map_iff in Hin as [piece [<- Hpiece]].
    exists piece. split; [exact Hpiece|]. split.
    + apply nonEmpty_true, Hne.
    + apply includes_spec, Hk.
  - intros [piece [Hpiece [Hne Hsub]]].
    exists (toLowerCase (trim piece)). split.
    + apply filter_In. split.
      * apply in_map_iff. exists piece. split; [reflexivity | exact Hpiece].
      * apply nonEmpty_true, Hne.
    + apply includes_spec, Hsub.
Qed.

Lemma ruleHits_false (text : string) (rule : Rule) :
  ruleHits text rule = false <-> ~ Hits text rule.
Proof.
  rewrite <- ruleHits_spec. destruct (ruleHits text rule); split; congruence.
Qed.

Lemma find_first {A : Type} (f : A -> bool) (before after : list A) (x : A) :
  (forall b, In b before -> f b = false) -> f x = true ->
  List.find f (before ++ x :: after) = Some x.
Proof.
  intros Hb Hx. induction before as [|b before IH]; simpl.
  - rewrite Hx. reflexivity.
  - rewrite (Hb b (or_introl eq_refl)). apply IH.
    intros b' Hin. apply Hb. right. exact Hin.
Qed.

Lemma find_none {A : Type} (f : A -> bool) (l : list A) :
  (forall b, In b l -> f b = false) -> List.find f l = None.
Proof.
  intros Hb. induction l as [|b l IH]; simpl; [reflexivity|].
  rewrite (Hb b (or_introl eq_refl)). apply IH.
  intros b' Hin. apply Hb. right. exact Hin.
Qed.

Lemma categorize_categorized (r : list Rule) (t : Tx) :
  JS.truthy (category t) = true -> categorize r t = t.
Proof. intros H. unfold categorize. rewrite H. reflexivity. Qed.

Lemma categorize_uncategorized (r : list Rule) (t : Tx) :
  JS.truthy (category t) = false ->
  categorize r t =
    match List.find (ruleHits (desc t)) r with
    | Some rule => withCategory t (rule_category rule)
    | None => t
    end.
Proof. intros H. unfold categorize. rewrite H. reflexivity. Qed.

Lemma categorize_idem (r : list Rule) (t : Tx) :
  categorize r (categorize r t) = categorize r t.
Proof.
  destruct (JS.truthy (category t)) eqn:Hc.
  - rewrite !(categorize_categorized r t Hc). reflexivity.
  - rewrite (categorize_uncategorized r t Hc).
    destruct (List.find (ruleHits (desc t)) r) as [rule|] eqn:Hf.
    + destruct (JS.truthy (category (withCategory t (rule_category rule)))) eqn:Hc'.
      * apply categorize_categorized, Hc'.
      * rewrite (categorize_uncategorized _ _ Hc').
        change (desc (withCategory t (rule_category rule))) with (desc t).
        rewrite Hf. reflexivity.
    + rewrite (categorize_uncategorized r t Hc), Hf. reflexivity.
Qed.

(** C1. A transaction whose [category] is a non-empty string comes out of
    [applyRules] unchanged, at its own position, whatever the rules are:
    the rules never override a category that is already there. *)
Theorem applyRules_keeps_categorized
    (toUpdate : list Tx) (rules : list Rule) (i : nat) (t : Tx) (c : string) :
  nth_error toUpdate i = Some t -> category t = Some c -> c <> "" ->
  nth_error (applyRules toUpdate rules) i = Some t.
Proof.
  intros Hi Hc Hne. unfold applyRules.
  rewrite nth_error_map, Hi. simpl. f_equal.
  apply categorize_categorized. rewrite Hc. simpl. apply nonEmpty_true, Hne.
Qed.

(** C2. The rule engine is idempotent: applying it to its own output with
    the same rules changes nothing. *)
Theorem applyRules_idempotent (T : list Tx) (R : list Rule) :
  applyRules (applyRules T R) R = applyRules T R.
Proof.
  unfold applyRules. rewrite map_map.
  apply map_ext. intros t. apply categorize_idem.
Qed.

Lemma activeRules_In (R : list Rule) (x : Rule) :
  In x (activeRules R) <-> In x R /\ enabled x = true.
Proof.
  unfold activeRules. rewrite <- filter_In. split; intros H.
  - eapply Permutation_in; [apply Permutation_sym, sortByPriority_perm | exact H].
  - eapply Permutation_in; [apply sortByPriority_perm | exact H].
Qed.

Lemma filter_filter_andb {A : Type} (f g : A -> bool) (l : list A) :
  List.filter f (List.filter g l) = List.filter (fun x => g x && f x) l.
Proof.
  induction l as [|x l IH]; simpl; [reflexivity|].
  destruct (g x); simpl; [destruct (f x)|]; rewrite IH; reflexivity.
Qed.

(** C3, as the code has it.  [applyRules] keeps length and positions; an element
    comes out unchanged or, when it had no category, with only its category
    set.  The rules in use are the enabled ones, in ascending priority, the
    rules of one priority in their input order.  For a transaction without
    category the text is the lower-cased description, one space, and the
    account (nothing when absent); the first rule in that order that hits
    the text gives its category, and when no rule hits the transaction
    comes out unchanged. *)
Theorem applyRules_first_active_rule (T : list Tx) (R : list Rule) :
  length (applyRules T R) = length T /\
  (forall i t, nth_error T i = Some t ->
     exists t', nth_error (applyRules T R) i = Some t' /\
       (t' = t \/
        (JS.truthy (category t) = false /\ exists c, t' = withCategory t c))) /\
  (forall x, In x (activeRules R) <-> In x R /\ enabled x = true) /\
  StronglySorted byPriority (activeRules R) /\
  (forall p, List.filter (hasPriority p) (activeRules R) =
             List.filter (fun x => enabled x && hasPriority p x) R) /\
  (forall i t, nth_error T i = Some t -> JS.truthy (category t) = false ->
     let text := toLowerCase (description t ++ " " ++ JS.orEmpty (account t)) in
     (forall (before : list Rule) (rule : Rule) (after : list Rule),
        activeRules R = (before ++ rule :: after)%list ->
        (forall b, In b before -> ~ Hits text b) -> Hits text rule ->
        nth_error (applyRules T R) i = Some (withCategory t (rule_category rule))) /\
     ((forall b, In b (activeRules R) -> ~ Hits text b) ->
        nth_error (applyRules T R) i = Some t)).
Proof.
  split; [apply length_map|].
  split.
  { intros i t Hi. exists (categorize (activeRules R) t). split.
    - unfold applyRules. rewrite nth_error_map, Hi. reflexivity.
    - destruct (JS.truthy (category t)) eqn:Hc.
      + left. apply categorize_categorized, Hc.
      + rewrite (categorize_uncategorized _ _ Hc).
        destruct (List.find _ _) as [rule|].
        * right. split; [reflexivity|]. exists (rule_category rule). reflexivity.
        * left. reflexivity. }
  split; [apply activeRules_In|].
  split; [apply sortByPriority_sorted|].
  split.
  { intros p. unfold activeRules.
    rewrite sortByPriority_stable. apply filter_filter_andb. }
  intros i t Hi Hc text. split.
  - intros before rule after Hr Hbefore Hrule.
    unfold applyRules. rewrite nth_error_map, Hi. simpl. f_equal.
    rewrite (categorize_uncategorized _ _ Hc), Hr.
    rewrite (find_first (ruleHits (desc t)) before after rule); [reflexivity | |].
    + intros b Hb. apply ruleHits_false, Hbefore, Hb.
    + apply ruleHits_spec, Hrule.
  - intros Hnone.
    unfold applyRules. rewrite nth_error_map, Hi. simpl. f_equal.
    rewrite (categorize_uncategorized _ _ Hc).
    rewrite (find_none (ruleHits (desc t))); [reflexivity|].
    intros b Hb. apply ruleHits_false, Hnone, Hb.
Qed.

End RuleEngineFacts.

Section RuleEngineExamples.

Import RuleEngine.

(** The engine on a small rule set: the disabled rule is skipped, priority
    10 goes before priority 20 whatever the input order, and of the two
    rules of priority 10 the one that comes first in the input wins. *)
Example applyRules_on_samples :
  applyRules
    [sampleTx "UBER *TRIP" (Some "Nubank") None;
     sampleTx "Padaria" None None;
     sampleTx "Netflix" None (Some "")]
    [ {| rule_id := "r0"; keywords := "uber"; rule_category := "Lazer";
         enabled := false; priority := 1 |};
      sampleRule "trip, nubank" "Outros" 20;
      sampleRule " Uber ,, 99" "Transporte" 10;
      sampleRule "uber, netflix" "Assinaturas e Serviços" 10 ]
  = [sampleTx "UBER *TRIP" (Some "Nubank") (Some "Transporte");
     sampleTx "Padaria" None None;
     sampleTx "Netflix" None (Some "Assinaturas e Serviços")].
Proof. reflexivity. Qed.

Lemma applyRules_keeps_categorized_witness :
  nth_error
    (applyRules
       [sampleTx "ifood" None None; sampleTx "ifood" None (Some "Lazer")]
       [sampleRule "ifood" "Alimentação" 10]) 1
  = Some (sampleTx "ifood" None (Some "Lazer")).
Proof.
  apply (applyRules_keeps_categorized _ _ 1%nat _ "Lazer");
    [reflexivity | reflexivity | discriminate].
Defined.

(** C3, as the specification words it, fails: with description [a] and
    account [b] the plain concatenation [ab] contains the keyword [ab] of
    the only rule, which would therefore assign [X]; the code looks in
    [a b] and leaves the transaction as it is. *)
Lemma applyRules_joins_with_space_counterexample :
  JS.truthy (category (sampleTx "a" (Some "b") None)) = false /\
  activeRules [sampleRule "ab" "X" 0] = [sampleRule "ab" "X" 0] /\
  ruleHits (Spec.desc (sampleTx "a" (Some "b") None)) (sampleRule "ab" "X" 0) = true /\
  List.map (Spec.categorize (activeRules [sampleRule "ab" "X" 0]))
    [sampleTx "a" (Some "b") None] = [sampleTx "a" (Some "b") (Some "X")] /\
  applyRules [sampleTx "a" (Some "b") None] [sampleRule "ab" "X" 0]
    = [sampleTx "a" (Some "b") None].
Proof. repeat split. Qed.

End RuleEngineExamples.

(** ** Budget evaluator *)

Section BudgetFacts.

Import BudgetEval.
Local Open Scope Q_scope.

Lemma Qltb_spec (x y : Q) : Aggregator.Qltb x y = true <-> x < y.
Proof.
  unfold Aggregator.Qltb. rewrite negb_true_iff. split.
  - intros H. apply Qnot_le_lt. intros Hle.
    apply Qle_bool_iff in Hle. congruence.
  - intros H. destruct (Qle_bool y x) eqn:E; [|reflexivity].
    apply Qle_bool_iff in E. exfalso. exact (Qlt_not_le _ _ H E).
Qed.

Lemma Qltb_false (x y : Q) : Aggregator.Qltb x y = false <-> y <= x.
Proof.
  unfold Aggregator.Qltb. rewrite negb_false_iff. apply Qle_bool_iff.
Qed.

Lemma statusOf_neutral (o g c : Q) :
  statusOf o g c = cinza <-> o == 0 /\ g == 0.
Proof.
  unfold statusOf.
  destruct (Qeq_bool o 0) eqn:Eo, (Qeq_bool g 0) eqn:Eg; simpl.
  - split; [intros _|reflexivity]. split; apply Qeq_bool_iff; assumption.
  - split.
    + destruct (Aggregator.Qltb c 0.8); [discriminate|].
      destruct (Qle_bool c 1); discriminate.
    + intros [_ Hg]. apply Qeq_bool_iff in Hg. congruence.
  - split.
    + destruct (Aggregator.Qltb c 0.8); [discriminate|].
      destruct (Qle_bool c 1); discriminate.
    + intros [Ho _]. apply Qeq_bool_iff in Ho. congruence.
  - split.
    + destruct (Aggregator.Qltb c 0.8); [discriminate|].
      destruct (Qle_bool c 1); discriminate.
    + intros [Ho _]. apply Qeq_bool_iff in Ho. congruence.
Qed.

Lemma statusOf_thresholds (o g c : Q) :
  ~ (o == 0 /\ g == 0) ->
  (c < 0.8 -> statusOf o g c = verde) /\
  (0.8 <= c /\ c <= 1 -> statusOf o g c = amarelo) /\
  (1 < c -> statusOf o g c = vermelho).
Proof.
  intros Hn. unfold statusOf.
  destruct (Qeq_bool o 0 && Qeq_bool g 0) eqn:E.
  { exfalso. apply Hn. apply andb_true_iff in E as [Eo Eg].
    split; apply Qeq_bool_iff; assumption. }
  repeat split.
  - intros Hc. apply Qltb_spec in Hc. rewrite Hc. reflexivity.
  - intros [Hlo Hhi]. apply Qltb_false in Hlo. rewrite Hlo.
    apply Qle_bool_iff in Hhi. rewrite Hhi. reflexivity.
  - intros Hc.
    assert (H1 : Aggregator.Qltb c 0.8 = false).
    { apply Qltb_false. apply Qlt_le_weak. eapply Qlt_trans; [|exact Hc]. reflexivity. }
    rewrite H1. destruct (Qle_bool c 1) eqn:E1; [|reflexivity].
    apply Qle_bool_iff in E1. exfalso. exact (Qlt_not_le _ _ Hc E1).
Qed.

Lemma budgetRow_zero_budget (budget : gmap string Q) (receita : Q)
    (gastos : gmap string Q) (c : string) :
  let row := budgetRow budget receita gastos c in
  orcado row == 0 -> 0 < gasto row ->
  cumprimento row = 0 /\ status row = verde.
Proof.
  intros row Ho Hg. subst row. cbn [orcado gasto cumprimento status budgetRow] in *.
  assert (E : Aggregator.Qltb 0 (receita * orDefault0 (budget !! c)) = false).
  { apply Qltb_false. rewrite Ho. apply Qle_refl. }
  rewrite E. split; [reflexivity|].
  apply statusOf_thresholds; [|reflexivity].
  intros [_ Hg0]. rewrite Hg0 in Hg. exact (Qlt_irrefl _ Hg).
Qed.

(** C4. Every row of the budget table carries the four-way status: grey
    ([cinza], neutral) exactly when the budgeted amount and the spend are
    both zero; otherwise green ([verde], on track) when the fulfilment is
    below 0.8, yellow ([amarelo], watch) from 0.8 to 1, red ([vermelho],
    over) above 1.  With a zero budgeted amount and a positive spend the
    fulfilment is 0, so the row is green and never red. *)
Theorem budgetRows_status (budget : gmap string Q) (receitaMes : Q)
    (gastoPorCategoria : gmap string Q) :
  Forall (fun row =>
      (status row = cinza <-> orcado row == 0 /\ gasto row == 0) /\
      (~ (orcado row == 0 /\ gasto row == 0) ->
         (cumprimento row < 0.8 -> status row = verde) /\
         (0.8 <= cumprimento row /\ cumprimento row <= 1 -> status row = amarelo) /\
         (1 < cumprimento row -> status row = vermelho)) /\
      (orcado row == 0 -> 0 < gasto row ->
         cumprimento row = 0 /\ status row = verde /\ status row <> vermelho))
    (budgetRows budget receitaMes gastoPorCategoria).
Proof.
  unfold budgetRows. apply List.Forall_forall. intros row Hin.
  apply in_map_iff in Hin as [c [<- _]].
  split; [apply statusOf_neutral|].
  split; [apply statusOf_thresholds|].
  intros Ho Hg.
  destruct (budgetRow_zero_budget budget receitaMes gastoPorCategoria c Ho Hg) as [Hc Hs].
  repeat split; [exact Hc | exact Hs | rewrite Hs; discriminate].
Qed.

Lemma Forall2_map_right {A B : Type} (P : A -> B -> Prop) (f : A -> B) (l : list A) :
  (forall x, P x (f x)) -> Forall2 P l (List.map f l).
Proof. intros H. induction l; simpl; constructor; auto. Qed.

(** C5. The budget table has one row per category of the vocabulary, in
    its order, with: the allocation of the category (0 when the budget has
    none), the budgeted amount allocation times monthly income, the spend
    of the category (0 when absent), the variance budgeted minus spent, and
    the fulfilment spent over budgeted when the budgeted amount is
    positive, 0 otherwise. *)
Theorem budgetRows_fields (budget : gmap string Q) (receitaMes : Q)
    (gastoPorCategoria : gmap string Q) :
  Forall2 (fun c row =>
      categoria row = c /\
      aloc row = match budget !! c with Some a => a | None => 0 end /\
      orcado row == aloc row * receitaMes /\
      gasto row = match gastoPorCategoria !! c with Some g => g | None => 0 end /\
      variancia row == orcado row - gasto row /\
      (0 < orcado row -> cumprimento row == gasto row / orcado row) /\
      (~ 0 < orcado row -> cumprimento row == 0))
    DEFAULT_CATEGORIES (budgetRows budget receitaMes gastoPorCategoria).
Proof.
  unfold budgetRows. apply Forall2_map_right. intros c.
  cbn [categoria aloc orcado gasto variancia cumprimento budgetRow].
  repeat split; try reflexivity.
  - apply Qmult_comm.
  - intros Hpos. apply Qltb_spec in Hpos. rewrite Hpos. reflexivity.
  - intros Hn.
    destruct (Aggregator.Qltb 0 (receitaMes * orDefault0 (budget !! c))) eqn:E;
      [|reflexivity].
    apply Qltb_spec in E. contradiction.
Qed.

(** The two budget examples of the specification. *)
Example budgetRow_over :
  let row := budgetRow {[ "Moradia" := 0.5 ]} 1000 {[ "Moradia" := 600 ]} "Moradia" in
  orcado row == 500 /\ variancia row == -100 /\ cumprimento row == 1.2 /\
  status row = vermelho.
Proof. vm_compute. repeat split. Qed.

Example budgetRow_neutral :
  status (budgetRow ∅ 1000 ∅ "Outros") = cinza.
Proof. reflexivity. Qed.

End BudgetFacts.

(** ** Aggregator *)

Section AggregatorFacts.

Import Aggregator.
Local Open Scope Q_scope.

Lemma countsUnder_spec (t : Tx) (c : string) :
  countsUnder t c = true <-> CountsUnder t c.
Proof.
  unfold countsUnder, CountsUnder.
  destruct (category t) as [[|a s]|]; rewrite String.eqb_eq; split; congruence.
Qed.

Lemma countsUnder_bucket (t : Tx) (c : string) :
  countsUnder t c = String.eqb (bucket t) c.
Proof.
  unfold countsUnder, bucket. destruct (category t) as [[|a s]|]; reflexivity.
Qed.





Lemma expense_term (t : Tx) :
  (if Qltb (amount t) 0 then Qabs (amount t) else 0) == expenseOf t.
Proof.
  unfold expenseOf. destruct (Qlt_le_dec (amount t) 0) as [H|H].
  - pose proof H as Hb. apply Qltb_spec in Hb. rewrite Hb.
    apply Qabs_neg, Qlt_le_weak, H.
  - apply Qltb_false in H. rewrite H. reflexivity.
Qed.


Lemma orZero_eq (v : option Q) : orZero v == BudgetEval.orDefault0 v.
Proof.
  destruct v as [q|]; simpl; [|reflexivity].
  destruct (Qeq_bool q 0) eqn:E; [|reflexivity].
  apply Qeq_bool_iff in E. symmetry. exact E.
Qed.

Lemma fold_spend_compat (l : list Tx) (a a' : Q) :
  a == a' ->
  fold_left (fun x t => x + Qabs (amount t)) l a
  == fold_left (fun x t => x + Qabs (amount t)) l a'.
Proof.
  revert a a'. induction l as [|t l IH]; intros a a' H; cbn [fold_left]; [exact H|].
  apply IH. rewrite H. reflexivity.
Qed.

Lemma set_plain (m : gmap string Cell) (c : string) (v : Cell) :
  JS.inherited c = false -> set m c v = <[c := v]> m.
Proof.
  intros H. unfold set. destruct (m !! c); [reflexivity|].
  destruct (String.eqb c "__proto__") eqn:E; [|reflexivity].
  apply String.eqb_eq in E. subst c. discriminate H.
Qed.

(** One turn of the loop at a key that [Object.prototype] does not have,
    on a map that holds numbers. *)
Lemma gastoStep_plain (m : gmap string Cell) (t : Tx) :
  Numeric m -> amount t < 0 -> JS.inherited (bucket t) = false ->
  exists q, gastoStep m t = <[bucket t := Num q]> m /\
            q == numberAt m (bucket t) + Qabs (amount t).
Proof.
  intros Hm Hneg Hc. unfold gastoStep, get, numberAt.
  apply Qltb_spec in Hneg. rewrite Hneg, Hc.
  destruct (m !! bucket t) as [v|] eqn:E.
  - destruct (Hm _ _ E) as [q ->].
    eexists. split; [apply set_plain, Hc|].
    rewrite (orZero_eq (Some q)). reflexivity.
  - eexists. split; [apply set_plain, Hc|]. reflexivity.
Qed.

Lemma Numeric_insert (m : gmap string Cell) (c : string) (q : Q) :
  Numeric m -> Numeric (<[c := Num q]> m).
Proof.
  intros Hm k v. destruct (String.eqb c k) eqn:E.
  - apply String.eqb_eq in E. subst k. rewrite lookup_insert_eq.
    intros [= <-]. eexists. reflexivity.
  - apply String.eqb_neq in E. rewrite lookup_insert_ne by exact E. apply Hm.
Qed.

Lemma gasto_fold (l : list Tx) (m : gmap string Cell) :
  Numeric m ->
  (forall t, In t l -> amount t < 0 -> JS.inherited (bucket t) = false) ->
  Numeric (fold_left gastoStep l m) /\
  forall c : string,
    (is_Some (fold_left gastoStep l m !! c) <->
     is_Some (m !! c) \/ exists t, In t l /\ amount t < 0 /\ CountsUnder t c) /\
    numberAt (fold_left gastoStep l m) c
    == fold_left (fun x t => x + Qabs (amount t))
         (List.filter (fun t => Qltb (amount t) 0 && countsUnder t c) l)
         (numberAt m c).
Proof.
  revert m. induction l as [|t l IH]; intros m Hm Hl; cbn [fold_left List.filter].
  - split; [exact Hm|]. intros c. split; [|reflexivity].
    split; [intros H; left; exact H | intros [H|[t [[] _]]]; exact H].
  - assert (Hl' : forall t', In t' l -> amount t' < 0 -> JS.inherited (bucket t') = false)
      by (intros t' Hin; apply Hl; right; exact Hin).
    destruct (Qlt_le_dec (amount t) 0) as [Hneg|Hpos].
    + destruct (gastoStep_plain m t Hm Hneg (Hl t (or_introl eq_refl) Hneg))
        as [q [Hstep Hq]].
      rewrite Hstep.
      destruct (IH _ (Numeric_insert m (bucket t) q Hm) Hl') as [Hn Hc].
      split; [exact Hn|]. intros c. destruct (Hc c) as [Hkey Hval]. clear Hc.
      rewrite (proj2 (Qltb_spec _ _) Hneg) by exact Hneg. cbn [andb].
      rewrite countsUnder_bucket in *.
      destruct (String.eqb (bucket t) c) eqn:E.
      * apply String.eqb_eq in E. subst c. split.
        -- rewrite Hkey, lookup_insert_eq. split.
           ++ intros _. right. exists t. split; [left; reflexivity|].
              split; [exact Hneg|]. apply countsUnder_spec.
              rewrite countsUnder_bucket. apply String.eqb_refl.
           ++ intros _. left. eexists. reflexivity.
        -- rewrite Hval. cbn [fold_left]. apply fold_spend_compat.
           unfold numberAt at 1. rewrite lookup_insert_eq. exact Hq.
      * apply String.eqb_neq in E. split.
        -- rewrite Hkey, lookup_insert_ne by exact E. split.
           ++ intros [H|[t' [Hin H]]]; [left; exact H|].
              right. exists t'. split; [right; exact Hin | exact H].
           ++ intros [H|[t' [[->|Hin] H]]]; [left; exact H | |].
              ** exfalso. apply E. destruct H as [_ H].
                 apply countsUnder_spec in H. rewrite countsUnder_bucket in H.
                 apply String.eqb_eq, H.
              ** right. exists t'. split; assumption.
        -- rewrite Hval. apply fold_spend_compat. unfold numberAt.
           rewrite lookup_insert_ne by exact E. reflexivity.
    + assert (Hb : Qltb (amount t) 0 = false) by (apply Qltb_false, Hpos).
      unfold gastoStep at 2 4 6. rewrite Hb. cbn [andb].
      destruct (IH m Hm Hl') as [Hn Hc]. split; [exact Hn|].
      intros c. destruct (Hc c) as [Hkey Hval]. split; [|exact Hval].
      rewrite Hkey. split.
      * intros [H|[t' [Hin H]]]; [left; exact H|].
        right. exists t'. split; [right; exact Hin | exact H].
      * intros [H|[t' [[->|Hin] H]]]; [left; exact H | |].
        -- exfalso. destruct H as [H _]. exact (Qlt_not_le _ _ H Hpos).
        -- right. exists t'. split; assumption.
Qed.

(** X21. Where no expense of the month counts under a name that
    [Object.prototype] has, the spend map has a key exactly for the
    categories under which an expense of the month counts (its own
    category, or the catch-all [Outros] when it has none), and its value
    there is a number: the absolute amounts of those expenses alone, added
    in the order of the list. *)
Theorem gastoPorCategoria_plain_keys (txMonth : list Tx) :
  (forall t, In t txMonth -> amount t < 0 -> JS.inherited (bucket t) = false) ->
  forall c : string,
    (is_Some (gastoPorCategoria txMonth !! c) <->
     exists t, In t txMonth /\ amount t < 0 /\ CountsUnder t c) /\
    (forall v, gastoPorCategoria txMonth !! c = Some v ->
       exists total, v = Num total /\ total == spendIn c txMonth).
Proof.
  intros Hl c. unfold gastoPorCategoria.
  assert (H0 : Numeric (∅ : gmap string Cell)).
  { intros k v H. rewrite lookup_empty in H. discriminate. }
  destruct (gasto_fold txMonth ∅ H0 Hl) as [Hn Hc].
  destruct (Hc c) as [Hkey Hval]. split.
  - rewrite Hkey, lookup_empty. split.
    + intros [[x H]|H]; [discriminate | exact H].
    + intros H. right. exact H.
  - intros v Hv. destruct (Hn _ _ Hv) as [total ->]. exists total.
    split; [reflexivity|].
    unfold numberAt in Hval. rewrite Hv, lookup_empty in Hval. exact Hval.
Qed.

(** C6 fails for a category that names a member of [Object.prototype].
    The spend map is a plain object, and [map[c] || 0] reads what the
    object inherits.  For an expense of 200 under [__proto__] the sum is a
    string, the assignment goes to the setter of the prototype, which
    ignores it, and the map stays empty; under [constructor] the map ends
    with a string and no number.  In both months the expense is 200 and
    all of it counts under that category. *)
Theorem gastoPorCategoria_prototype_key :
  txMonth 0 [withCategory groceries "__proto__"] "2025-09"
    = [withCategory groceries "__proto__"] /\
  despesaMes [withCategory groceries "__proto__"] = 200 /\
  spendIn "__proto__" [withCategory groceries "__proto__"] = 200 /\
  gastoPorCategoria [withCategory groceries "__proto__"] = ∅ /\
  despesaMes [withCategory groceries "constructor"] = 200 /\
  spendIn "constructor" [withCategory groceries "constructor"] = 200 /\
  gastoPorCategoria [withCategory groceries "constructor"] = {[ "constructor" := Text ]} /\
  gastoPorCategoria [groceries] = {[ "Food" := Num 200 ]}.
Proof. vm_compute. repeat split. Qed.

End AggregatorFacts.

Lemma gastoPorCategoria_plain_keys_witness :
  exists total,
    Aggregator.gastoPorCategoria [salary; groceries] !! "Food" = Some (Aggregator.Num total) /\
    (total == spendIn "Food" [salary; groceries])%Q.
Proof.
  assert (H : forall t, In t [salary; groceries] -> (amount t < 0)%Q ->
                JS.inherited (Aggregator.bucket t) = false)
    by (intros t [<- | [<- | []]] _; reflexivity).
  destruct (gastoPorCategoria_plain_keys [salary; groceries] H "Food") as [_ Hv].
  destruct (Hv (Aggregator.Num 200) ltac:(vm_compute; reflexivity)) as [total [E Ht]].
  exists total. split; [rewrite <- E; vm_compute; reflexivity | exact Ht].
Defined.

(** ** Normaliser: amounts *)

Section AmountFacts.

Import Normalizer.

Lemma hasChar_spec (s : string) (c : ascii) :
  JS.hasChar s c = true <-> Contains c s.
Proof.
  unfold JS.hasChar, Contains. induction s as [|x r IH].
  - simpl. split; [discriminate | intros []].
  - cbn [JS.includes JS.startsWith list_ascii_of_string In].
    rewrite orb_true_iff, andb_true_r, IH, Ascii.eqb_eq.
    split; intros [H|H]; auto.
Qed.

Lemma hasChar_false (s : string) (c : ascii) :
  JS.hasChar s c = false <-> ~ Contains c s.
Proof.
  rewrite <- hasChar_spec. destruct (JS.hasChar s c); split; congruence.
Qed.

Lemma removeAll_chars (c : ascii) (s : string) : Stripped c (removeAll c s) s.
Proof.
  unfold Stripped. induction s as [|x r IH]; simpl; [reflexivity|].
  destruct (Ascii.eqb x c); simpl; rewrite IH; reflexivity.
Qed.

Lemma Stripped_unique (c : ascii) (s' s : string) :
  Stripped c s' s -> s' = removeAll c s.
Proof.
  intros H. unfold Stripped in H. rewrite <- (removeAll_chars c s) in H.
  apply (f_equal string_of_list_ascii) in H.
  rewrite !string_of_list_ascii_of_string in H. exact H.
Qed.

Lemma replaceFirst_spec (c d : ascii) (pre post : string) :
  ~ Contains c pre ->
  replaceFirst c d (pre ++ String c post) = pre ++ String d post.
Proof.
  unfold Contains. induction pre as [|x pre IH]; intros Hn; simpl.
  - rewrite Ascii.eqb_refl. reflexivity.
  - destruct (Ascii.eqb x c) eqn:E.
    + apply Ascii.eqb_eq in E. exfalso. apply Hn. left. exact E.
    + rewrite IH; [reflexivity|]. intros Hin. apply Hn. right. exact Hin.
Qed.

Lemma digit_facts (c : ascii) :
  JS.isDigit c = true ->
  JS.isSpace c = false /\ Ascii.eqb c "." = false /\ Ascii.eqb c "," = false /\
  Ascii.eqb c "-" = false /\ Ascii.eqb c "+" = false.
Proof.
  destruct c as [[] [] [] [] [] [] [] []]; vm_compute; intros H;
    first [discriminate H | repeat split].
Qed.

Lemma digit_plain (c : ascii) : JS.isDigit c = true -> plain c = true.
Proof.
  intros H. destruct (digit_facts c H) as [Hsp _].
  unfold plain. rewrite Hsp. unfold JS.isDigit in H.
  apply andb_true_iff in H as [_ H]. apply Nat.leb_le in H.
  rewrite andb_true_r. apply Nat.ltb_lt. lia.
Qed.

Lemma plain_bytes (c d e : ascii) :
  plain c = true -> JS.isSpace c = false /\ JS.isSpace2 c d = false /\ JS.isSpace3 c d e = false.
Proof.
  unfold plain. intros H. apply andb_true_iff in H as [Hc Hs].
  apply negb_true_iff in Hs. apply Nat.ltb_lt in Hc.
  assert (Hk : forall k, (128 <= k)%nat -> Nat.eqb (JS.code c) k = false)
    by (intros k Hk; apply Nat.eqb_neq; lia).
  unfold JS.isSpace2, JS.isSpace3.
  rewrite (Hk 194%nat), (Hk 225%nat), (Hk 226%nat), (Hk 227%nat), (Hk 239%nat) by lia.
  split; [exact Hs | split; reflexivity].
Qed.

Lemma trimStart_plain (c : ascii) (r : string) :
  plain c = true -> JS.trimStart (String c r) = String c r.
Proof.
  intros H. cbn [JS.trimStart].
  destruct (plain_bytes c " " " " H) as [-> _].
  destruct r as [|d r']; [reflexivity|].
  destruct (plain_bytes c d " " H) as [_ [-> _]].
  destruct r' as [|e r'']; [reflexivity|].
  destruct (plain_bytes c d e H) as [_ [_ ->]]. reflexivity.
Qed.

Lemma trimEnd_cons (c : ascii) (r : string) :
  plain c = true -> JS.trimEnd (String c r) = String c (JS.trimEnd r).
Proof.
  intros H. cbn [JS.trimEnd]. unfold JS.allSpace.
  rewrite (trimStart_plain c r H). reflexivity.
Qed.

Lemma trim_digit (u : string) :
  startsWithDigit u = true ->
  startsWithDigit (JS.trim u) = true /\
  JS.trim (String "-" u) = String "-" (JS.trim u).
Proof.
  destruct u as [|d u']; [discriminate|]. cbn [startsWithDigit]. intros Hd.
  pose proof (digit_plain d Hd) as Hp.
  unfold JS.trim.
  rewrite (trimStart_plain d u' Hp), (trimStart_plain "-" (String d u') eq_refl).
  rewrite (trimEnd_cons "-") by reflexivity.
  rewrite (trimEnd_cons d) by exact Hp.
  split; [exact Hd | reflexivity].
Qed.

Lemma decimalPoint_digit (v : string) :
  startsWithDigit v = true ->
  startsWithDigit (decimalPoint v) = true /\
  decimalPoint (String "-" v) = String "-" (decimalPoint v).
Proof.
  destruct v as [|d v']; [discriminate|]. cbn [startsWithDigit]. intros Hd.
  destruct (digit_facts d Hd) as [_ [Hdot [Hcomma _]]].
  assert (Hm : forall c, c = "."%char \/ c = ","%char ->
            JS.hasChar (String "-" (String d v')) c = JS.hasChar (String d v') c).
  { intros c [-> | ->]; reflexivity. }
  unfold decimalPoint. rewrite !Hm by auto.
  destruct (JS.hasChar (String d v') "." && JS.hasChar (String d v') ",").
  - cbn [removeAll replaceFirst]. rewrite Hdot.
    change (Ascii.eqb "-" ".") with false. cbv iota.
    cbn [replaceFirst]. rewrite Hcomma.
    change (Ascii.eqb "-" ",") with false. cbv iota.
    split; [exact Hd | reflexivity].
  - destruct (JS.hasChar (String d v') "," && negb (JS.hasChar (String d v') ".")).
    + cbn [replaceFirst]. rewrite Hcomma.
      change (Ascii.eqb "-" ",") with false. cbv iota.
      split; [exact Hd | reflexivity].
    + split; [exact Hd | reflexivity].
Qed.

Lemma unsignedDecimal_radix (x : ascii) (base : Z) (r : string) :
  JSNumber.radixOf x = Some base ->
  JSNumber.unsignedDecimal (String "0" (String x r)) = None.
Proof.
  unfold JSNumber.radixOf. intros H.
  repeat match type of H with
         | context [Ascii.eqb x ?c] =>
             let E := fresh "E" in
             destruct (Ascii.eqb x c) eqn:E;
             [apply Ascii.eqb_eq in E; subst x; reflexivity|]
         end.
  discriminate H.
Qed.

Lemma unsigned_decimal (w : string) (q : Q) :
  JSNumber.unsignedDecimal w = Some q -> JSNumber.unsigned w = JSNumber.rounded q.
Proof.
  intros Hw. unfold JSNumber.unsigned.
  destruct (String.eqb w "Infinity") eqn:E.
  - apply String.eqb_eq in E. subst w. discriminate Hw.
  - rewrite Hw. reflexivity.
Qed.

Lemma parseTrimmed_unsigned (w : string) (q : Q) :
  JSNumber.unsignedDecimal w = Some q ->
  JSNumber.parseTrimmed w = JSNumber.rounded q /\
  JSNumber.parseTrimmed (String "-" w) = JSNumber.negate (JSNumber.rounded q).
Proof.
  intros Hw. pose proof (unsigned_decimal w q Hw) as Hu.
  split; [|cbn; rewrite Hu; reflexivity].
  destruct w as [|c r]; [discriminate|]. unfold JSNumber.parseTrimmed.
  destruct (Ascii.eqb c "-") eqn:E1.
  { apply Ascii.eqb_eq in E1. subst c. discriminate Hw. }
  destruct (Ascii.eqb c "+") eqn:E2.
  { apply Ascii.eqb_eq in E2. subst c. discriminate Hw. }
  destruct (Ascii.eqb c "0") eqn:E3; [|exact Hu].
  apply Ascii.eqb_eq in E3. subst c.
  destruct r as [|x r']; [exact Hu|].
  destruct (JSNumber.radixOf x) as [base|] eqn:Ex; [|exact Hu].
  rewrite (unsignedDecimal_radix x base r' Ex) in Hw. discriminate.
Qed.

Lemma rounded_number (q : Q) :
  match JSNumber.rounded q with JSNumber.NaN => JSNumber.Finite 0 | n => n end
  = JSNumber.rounded q /\
  match JSNumber.negate (JSNumber.rounded q) with
  | JSNumber.NaN => JSNumber.Finite 0
  | n => n
  end = JSNumber.negate (JSNumber.rounded q).
Proof.
  unfold JSNumber.rounded.
  destruct (Qle_bool JSNumber.overflow (Qabs q)); [split; reflexivity|].
  destruct (Qle_bool (Qabs q) JSNumber.underflow); split; reflexivity.
Qed.

(** C8. The amount text is trimmed of white space and then rewritten
    under three conventions.  With both [.] and [,] in it, every [.] goes
    and the (first) [,] becomes the decimal point; with [,] and no [.],
    the (first) [,] becomes the decimal point; with no [,], the text stays
    as it is.  [Number] then reads the text, and what it cannot read gives
    0.  A text that reads as a decimal literal without sign gives the
    value of the literal, rounded to an infinity from the largest finite
    number on; with [-] in front of it, when it starts with a digit, the
    opposite.  [Number] reads more than decimal literals: a literal with
    an exponent, in base 16, 8 or 2, the word [Infinity], and the empty
    text as 0.  The two examples of the specification come out as 1234.56
    and 723.11. *)
Theorem normAmount_conventions :
  (forall raw : string,
     let s := JS.trim raw in
     (Contains "." s -> Contains "," s ->
      forall s' pre post, Stripped "." s' s -> s' = pre ++ "," ++ post ->
        ~ Contains "," pre ->
        normAmount (Some raw) =
          match JSNumber.Number (pre ++ "." ++ post) with
          | JSNumber.NaN => JSNumber.Finite 0
          | n => n
          end) /\
     (~ Contains "." s ->
      forall pre post, s = pre ++ "," ++ post -> ~ Contains "," pre ->
        normAmount (Some raw) =
          match JSNumber.Number (pre ++ "." ++ post) with
          | JSNumber.NaN => JSNumber.Finite 0
          | n => n
          end) /\
     (~ Contains "," s ->
        normAmount (Some raw) =
          match JSNumber.Number s with
          | JSNumber.NaN => JSNumber.Finite 0
          | n => n
          end)) /\
  (forall (w : string) (q : Q),
     JSNumber.unsignedDecimal (JS.trim w) = Some q ->
     JSNumber.Number w = JSNumber.rounded q) /\
  (forall (u : string) (q : Q),
     startsWithDigit u = true ->
     JSNumber.unsignedDecimal (JS.trim (decimalPoint (JS.trim u))) = Some q ->
     normAmount (Some u) = JSNumber.rounded q /\
     normAmount (Some ("-" ++ u)) = JSNumber.negate (JSNumber.rounded q)) /\
  normAmount (Some "1.234,56") = JSNumber.Finite 1234.56 /\
  normAmount (Some "723,11") = JSNumber.Finite 723.11 /\
  normAmount (Some "-250.30") = JSNumber.Finite (-250.30) /\
  normAmount (Some nbspAmount) = JSNumber.Finite 1234.56 /\
  normAmount (Some "1e3") = JSNumber.Finite 1000 /\
  normAmount (Some "0x1F") = JSNumber.Finite 31 /\
  normAmount (Some "0b101") = JSNumber.Finite 5 /\
  normAmount (Some "Infinity") = JSNumber.Infinity false /\
  normAmount (Some "-Infinity") = JSNumber.Infinity true /\
  normAmount (Some "1e400") = JSNumber.Infinity false /\
  normAmount (Some "   ") = JSNumber.Finite 0 /\
  normAmount (Some "abc") = JSNumber.Finite 0 /\
  normAmount (Some "-0x1F") = JSNumber.Finite 0 /\
  normAmount None = JSNumber.Finite 0.
Proof.
  split; [|split; [|split; [|vm_compute; repeat split]]].
  - intros raw s. unfold normAmount. fold s. repeat split.
    + intros Hdot Hcomma s' pre post Hs' Hsplit Hpre.
      apply hasChar_spec in Hdot, Hcomma. unfold decimalPoint.
      rewrite Hdot, Hcomma. cbn [andb].
      rewrite <- (Stripped_unique _ _ _ Hs'), Hsplit.
      change (pre ++ "," ++ post) with (pre ++ String "," post).
      rewrite (replaceFirst_spec "," "." pre post Hpre). reflexivity.
    + intros Hdot pre post Hsplit Hpre.
      apply hasChar_false in Hdot.
      assert (Hcomma : JS.hasChar s "," = true).
      { apply hasChar_spec. unfold Contains. rewrite Hsplit.
        clear. induction pre; simpl; auto. }
      unfold decimalPoint. rewrite Hdot, Hcomma. cbn [andb negb].
      rewrite Hsplit. change (pre ++ "," ++ post) with (pre ++ String "," post).
      rewrite (replaceFirst_spec "," "." pre post Hpre). reflexivity.
    + intros Hcomma. apply hasChar_false in Hcomma.
      unfold decimalPoint. rewrite Hcomma, andb_false_r. reflexivity.
  - intros w q Hq. unfold JSNumber.Number.
    apply (parseTrimmed_unsigned _ _ Hq).
  - intros u q Hu Hq. unfold normAmount.
    destruct (trim_digit u Hu) as [Hd1 Ht1].
    destruct (decimalPoint_digit _ Hd1) as [Hd2 Ht2].
    destruct (trim_digit _ Hd2) as [_ Ht3].
    destruct (parseTrimmed_unsigned _ _ Hq) as [Hp Hm].
    change ("-" ++ u) with (String "-" u).
    unfold JSNumber.Number. rewrite Ht1, Ht2, Ht3, Hp, Hm.
    apply rounded_number.
Qed.

End AmountFacts.

Lemma normAmount_conventions_witness :
  Normalizer.normAmount (Some "250,30") = JSNumber.Finite 250.30 /\
  Normalizer.normAmount (Some "-250,30") = JSNumber.Finite (- 250.30).
Proof.
  apply (proj1 (proj2 (proj2 normAmount_conventions)) "250,30" 250.30%Q); reflexivity.
Defined.

(** C8, as the specification words it, fails: a text with neither [.] nor
    [,] is not always read as a plain decimal number, and a text that is
    no decimal number does not always give 0.  [0x1F] is read in base 16
    and gives 31, and [Infinity] gives an infinite amount. *)
Lemma normAmount_hexadecimal_counterexample :
  Normalizer.normAmount (Some "0x1F") = JSNumber.Finite 31 /\
  Spec.normAmount (Some "0x1F") = 0%Q /\
  Normalizer.normAmount (Some "Infinity") = JSNumber.Infinity false /\
  Spec.normAmount (Some "Infinity") = 0%Q.
Proof. vm_compute. repeat split. Qed.

(** ** Normaliser: dates *)

Section DateFacts.

Import Normalizer.

Variable today : string.
Variable genericDate : string -> option string.

Lemma slash_not_digit (c : ascii) :
  JS.isDigit c = true -> Ascii.eqb c "/" = false.
Proof.
  destruct c as [[] [] [] [] [] [] [] []]; vm_compute; intros H;
    first [discriminate H | reflexivity].
Qed.

Lemma test_iso (y m d : string) :
  Digits 4 y -> Digits 2 m -> Digits 2 d ->
  JSDate.test JSDate.isoRe (y ++ "-" ++ m ++ "-" ++ d) = true.
Proof.
  intros Hy Hm Hd. digits Hy. digits Hm. digits Hd.
  cbv beta iota delta [String.append]. cbn [JSDate.test JSDate.isoRe].
  repeat match goal with H : JS.isDigit _ = true |- _ => rewrite H; clear H end.
  reflexivity.
Qed.

Lemma test_br (y m d : string) :
  Digits 4 y -> Digits 2 m -> Digits 2 d ->
  JSDate.test JSDate.isoRe (d ++ "/" ++ m ++ "/" ++ y) = false /\
  JSDate.test JSDate.brRe (d ++ "/" ++ m ++ "/" ++ y) = true /\
  JS.split "/" (d ++ "/" ++ m ++ "/" ++ y) = [d; m; y].
Proof.
  intros Hy Hm Hd. digits Hy. digits Hm. digits Hd.
  cbv beta iota delta [String.append].
  cbn [JSDate.test JSDate.isoRe JSDate.brRe JS.split].
  repeat match goal with
         | H : JS.isDigit ?c = true |- _ =>
             rewrite ?(slash_not_digit c H); rewrite ?H; clear H
         end.
  repeat split.
Qed.

Lemma test_D (re : list JSDate.cls) (s : string) :
  JSDate.test (JSDate.D :: re) s = true ->
  exists c s', s = String c s' /\ JS.isDigit c = true /\ JSDate.test re s' = true.
Proof.
  destruct s as [|c s']; simpl; [discriminate|].
  intros H. apply andb_true_iff in H as [H1 H2]. eauto.
Qed.

Lemma test_Lit (a : ascii) (re : list JSDate.cls) (s : string) :
  JSDate.test (JSDate.Lit a :: re) s = true ->
  exists s', s = String a s' /\ JSDate.test re s' = true.
Proof.
  destruct s as [|c s']; simpl; [discriminate|].
  intros H. apply andb_true_iff in H as [H1 H2].
  apply Ascii.eqb_eq in H1. subst c. eauto.
Qed.

Lemma test_nil (s : string) : JSDate.test [] s = true -> s = "".
Proof. destruct s; simpl; [reflexivity | discriminate]. Qed.

Ltac peel H :=
  first
    [ apply test_D in H as (? & ? & -> & ? & H)
    | apply test_Lit in H as (? & -> & H) ].

Lemma test_iso_shape (s : string) :
  JSDate.test JSDate.isoRe s = true -> IsoShape s.
Proof.
  intros H. unfold JSDate.isoRe in H. do 10 peel H.
  apply test_nil in H. subst.
  match goal with
  | |- IsoShape (String ?a (String ?b (String ?c (String ?d (String _
         (String ?e (String ?f (String _ (String ?g (String ?h _)))))))))) =>
      exists (String a (String b (String c (String d "")))),
             (String e (String f "")), (String g (String h ""))
  end.
  unfold Digits. cbn [String.length list_ascii_of_string].
  repeat split; auto.
Qed.

Lemma test_br_shape (s : string) :
  JSDate.test JSDate.brRe s = true -> BrShape s.
Proof.
  intros H. unfold JSDate.brRe in H. do 10 peel H.
  apply test_nil in H. subst.
  match goal with
  | |- BrShape (String ?a (String ?b (String _ (String ?c (String ?d
         (String _ (String ?e (String ?f (String ?g (String ?h _)))))))))) =>
      exists (String e (String f (String g (String h "")))),
             (String c (String d "")), (String a (String b ""))
  end.
  unfold Digits. cbn [String.length list_ascii_of_string].
  repeat split; auto.
Qed.

(** No text has both shapes: the third character is a digit in one and
    [/] in the other. *)
Lemma iso_not_br (s : string) :
  JSDate.test JSDate.isoRe s = true -> JSDate.test JSDate.brRe s = false.
Proof.
  intros H. unfold JSDate.isoRe in H. do 3 peel H.
  cbn [JSDate.test JSDate.brRe].
  match goal with
  | Hd : JS.isDigit ?c = true |- context [Ascii.eqb "/" ?c] =>
      replace (Ascii.eqb "/" c) with false
  end.
  - rewrite !andb_false_r. reflexivity.
  - symmetry. rewrite Ascii.eqb_sym. apply slash_not_digit. assumption.
Qed.

(** C9. A missing (or empty) raw date gives the current date.  Otherwise
    the trimmed text is tried in order: (a) four digits, [-], two digits,
    [-], two digits is kept as it is; (b) two digits, [/], two digits, [/],
    four digits is rearranged to year-month-day, with no check of the
    ranges; (c) any other text goes to the generic parser, and to the
    current date when that fails. *)
Theorem normDate_priority :
  normDate today genericDate None = today /\
  normDate today genericDate (Some "") = today /\
  (forall raw : string, raw <> "" ->
     let s := JS.trim raw in
     (forall y m d, Digits 4 y -> Digits 2 m -> Digits 2 d ->
        s = y ++ "-" ++ m ++ "-" ++ d ->
        normDate today genericDate (Some raw) = s) /\
     (forall y m d, Digits 4 y -> Digits 2 m -> Digits 2 d ->
        s = d ++ "/" ++ m ++ "/" ++ y ->
        normDate today genericDate (Some raw) = y ++ "-" ++ m ++ "-" ++ d) /\
     (~ IsoShape s -> ~ BrShape s ->
        normDate today genericDate (Some raw) =
          match genericDate s with
          | Some iso => iso
          | None => today
          end)) /\
  normDate today genericDate (Some "2025-09-15") = "2025-09-15" /\
  normDate today genericDate (Some " 15/09/2025 ") = "2025-09-15" /\
  normDate today genericDate (Some "99/99/2025") = "2025-99-99".
Proof.
  split; [reflexivity|]. split; [reflexivity|].
  split; [|repeat split].
  intros raw Hraw s.
  assert (Ht : JS.truthy (Some raw) = true) by (apply nonEmpty_true, Hraw).
  unfold normDate. rewrite Ht. cbn [JS.orEmpty]. fold s. repeat split.
  - intros y m d Hy Hm Hd ->. rewrite (test_iso y m d Hy Hm Hd). reflexivity.
  - intros y m d Hy Hm Hd ->.
    destruct (test_br y m d Hy Hm Hd) as [H1 [H2 H3]].
    rewrite H1, H2, H3. reflexivity.
  - intros Hiso Hbr.
    destruct (JSDate.test JSDate.isoRe s) eqn:E1.
    { exfalso. apply Hiso, test_iso_shape, E1. }
    destruct (JSDate.test JSDate.brRe s) eqn:E2.
    { exfalso. apply Hbr, test_br_shape, E2. }
    reflexivity.
Qed.

(** The two normaliser examples of the specification, on whole rows. *)
Example parseRow_examples :
  (let t := parseRow today genericDate "id1"
              {[ "date" := "15/09/2025"; "amount" := "1.234,56" ]} in
   date t = "2025-09-15" /\ amount t = 1234.56%Q /\
   description t = "(sem descrição)" /\ category t = None) /\
  (let t := parseRow today genericDate "id2"
              {[ "Data" := "2025-09-15"; "valor" := "723,11"; "categoria" := "Lazer" ]} in
   date t = "2025-09-15" /\ amount t = 723.11%Q /\ category t = Some "Lazer").
Proof. vm_compute. repeat split. Qed.

End DateFacts.

(** C9, as the specification words it, fails: the two patterns are not
    tried on the raw text but on the text without the white space around
    it.  With a space on either side of [15/09/2025], and with a no-break
    space in front of it, the code stores [2025-09-15]; tried on the raw
    text neither pattern matches, and a generic parser that rejects the
    text (a day-first date is no date for it) leaves the current date. *)
Lemma normDate_trims_before_matching_counterexample :
  Normalizer.normDate "2000-01-01" (fun _ => None) (Some " 15/09/2025 ") = "2025-09-15" /\
  Spec.normDate "2000-01-01" (fun _ => None) (Some " 15/09/2025 ") = "2000-01-01" /\
  Normalizer.normDate "2000-01-01" (fun _ => None) (Some nbspDate) = "2025-09-15" /\
  Spec.normDate "2000-01-01" (fun _ => None) (Some nbspDate) = "2000-01-01".
Proof. vm_compute. repeat split. Qed.

(** ** Calendar and month filter *)

Section MonthFacts.

Import Aggregator.

Lemma isLeap_spec (y : Z) :
  JSDate.isLeap y = true <-> (y mod 4 = 0 /\ (y mod 100 <> 0 \/ y mod 400 = 0)).
Proof.
  unfold JSDate.isLeap.
  rewrite andb_true_iff, orb_true_iff, negb_true_iff, !Z.eqb_eq, Z.eqb_neq.
  tauto.
Qed.

Lemma daysInMonth_cases (y m : Z) :
  1 <= m <= 12 ->
  (m = 2 /\ JSDate.isLeap y = true /\ JSDate.daysInMonth y m = 29) \/
  (m = 2 /\ JSDate.isLeap y = false /\ JSDate.daysInMonth y m = 28) \/
  ((m = 4 \/ m = 6 \/ m = 9 \/ m = 11) /\ JSDate.daysInMonth y m = 30) \/
  ((m = 1 \/ m = 3 \/ m = 5 \/ m = 7 \/ m = 8 \/ m = 10 \/ m = 12) /\
   JSDate.daysInMonth y m = 31).
Proof.
  intros Hm. unfold JSDate.daysInMonth.
  assert (m = 1 \/ m = 2 \/ m = 3 \/ m = 4 \/ m = 5 \/ m = 6 \/ m = 7 \/ m = 8 \/
          m = 9 \/ m = 10 \/ m = 11 \/ m = 12) as H by lia.
  destruct (JSDate.isLeap y);
  repeat (destruct H as [-> | H]; [cbn; tauto|]); subst; cbn; tauto.
Qed.

(** The day of the year that starts in March, and the month back from
    it. *)
Lemma month_part (y m d : Z) :
  1 <= m <= 12 -> 1 <= d <= JSDate.daysInMonth y m ->
  let mp := if 2 <? m then m - 3 else m + 9 in
  let doy := (153 * mp + 2) / 5 + d - 1 in
  0 <= doy <= 365 /\ (5 * doy + 2) / 153 = mp /\
  (doy = 365 -> m = 2 /\ JSDate.isLeap y = true).
Proof.
  intros Hm Hd.
  destruct (daysInMonth_cases y m Hm)
    as [(-> & Hl & E) | [(-> & Hl & E) | [(Hc & E) | (Hc & E)]]];
    rewrite E in Hd; clear E.
  - cbn. repeat split; try (Z.to_euclidean_division_equations; lia). exact Hl.
  - cbn. repeat split; try (Z.to_euclidean_division_equations; lia).
  - repeat (destruct Hc as [-> | Hc]); subst; cbn;
      repeat split; try (Z.to_euclidean_division_equations; lia).
  - repeat (destruct Hc as [-> | Hc]); subst; cbn;
      repeat split; try (Z.to_euclidean_division_equations; lia).
Qed.

(** The year of the 400-year era back from the day of the era. *)
Lemma yoe_recover (yoe doy : Z) :
  0 <= yoe < 400 -> 0 <= doy <= 365 ->
  (doy = 365 -> (yoe + 1) mod 4 = 0 /\ ((yoe + 1) mod 100 <> 0 \/ (yoe + 1) mod 400 = 0)) ->
  let doe := yoe * 365 + yoe / 4 - yoe / 100 + doy in
  0 <= doe < 146097 /\
  (doe - doe / 1460 + doe / 36524 - doe / 146096) / 365 = yoe.
Proof.
  intros Hy Hd Hl doe. subst doe.
  Z.to_euclidean_division_equations; lia.
Qed.

Lemma civilFromDays_era (era yoe doy : Z) :
  0 <= yoe < 400 -> 0 <= doy <= 365 ->
  (doy = 365 -> (yoe + 1) mod 4 = 0 /\ ((yoe + 1) mod 100 <> 0 \/ (yoe + 1) mod 400 = 0)) ->
  JSDate.civilFromDays
    (era * 146097 + (yoe * 365 + yoe / 4 - yoe / 100 + doy) - 719468)
  = (let mp := (5 * doy + 2) / 153 in
     let m := if mp <? 10 then mp + 3 else mp - 9 in
     (if m <=? 2 then yoe + era * 400 + 1 else yoe + era * 400, m)).
Proof.
  intros Hy Hd Hl.
  destruct (yoe_recover yoe doy Hy Hd Hl) as [Hdoe Hrec].
  unfold JSDate.civilFromDays.
  set (doe := yoe * 365 + yoe / 4 - yoe / 100 + doy) in *.
  replace (era * 146097 + doe - 719468 + 719468) with (doe + era * 146097) by ring.
  rewrite Z.div_add by lia. rewrite (Z.div_small doe) by lia.
  cbv zeta.
  replace (doe + era * 146097 - (0 + era) * 146097) with doe by ring.
  rewrite Hrec.
  replace (doe - (365 * yoe + yoe / 4 - yoe / 100)) with doy by (subst doe; ring).
  replace (0 + era) with era by ring.
  reflexivity.
Qed.

(** [civilFromDays] inverts [daysFromCivil] on the dates of the calendar,
    in every year. *)
Lemma civil_roundtrip (y m d : Z) :
  1 <= m <= 12 -> 1 <= d <= JSDate.daysInMonth y m ->
  JSDate.civilFromDays (JSDate.daysFromCivil y m d) = (y, m).
Proof.
  intros Hm Hd.
  destruct (month_part y m d Hm Hd) as (Hdoy & Hmp & Hleap).
  unfold JSDate.daysFromCivil. cbv zeta.
  set (y' := if m <=? 2 then y - 1 else y) in *.
  set (mp := if 2 <? m then m - 3 else m + 9) in *.
  set (doy := (153 * mp + 2) / 5 + d - 1) in *.
  set (yoe := y' - y' / 400 * 400).
  assert (Hyoe : 0 <= yoe < 400) by (subst yoe; Z.to_euclidean_division_equations; lia).
  rewrite civilFromDays_era; [| exact Hyoe | exact Hdoy |].
  - cbv zeta. rewrite Hmp.
    assert (Em : (if mp <? 10 then mp + 3 else mp - 9) = m).
    { subst mp. destruct (2 <? m) eqn:E.
      - apply Z.ltb_lt in E. replace (m - 3 <? 10) with true by (symmetry; apply Z.ltb_lt; lia). lia.
      - apply Z.ltb_ge in E. replace (m + 9 <? 10) with false by (symmetry; apply Z.ltb_ge; lia). lia. }
    rewrite Em. f_equal. subst yoe y'.
    destruct (m <=? 2); lia.
  - intros H365. destruct (Hleap H365) as [-> Hl].
    apply isLeap_spec in Hl. subst yoe y'. cbn [Z.leb Z.compare Pos.compare Pos.compare_cont].
    Z.to_euclidean_division_equations; lia.
Qed.

(** The year and month of the day before a date: the same from the 2nd
    on, the month before on the 1st. *)
Lemma day_before (y m d : Z) :
  1 <= m <= 12 -> 1 <= d <= JSDate.daysInMonth y m ->
  JSDate.civilFromDays (JSDate.daysFromCivil y m d - 1) =
    if 2 <=? d then (y, m)
    else if m =? 1 then (y - 1, 12)
    else (y, m - 1).
Proof.
  intros Hm Hd. destruct (2 <=? d) eqn:E.
  - apply Z.leb_le in E.
    replace (JSDate.daysFromCivil y m d - 1) with (JSDate.daysFromCivil y m (d - 1))
      by (unfold JSDate.daysFromCivil; lia).
    apply civil_roundtrip; lia.
  - apply Z.leb_gt in E. assert (d = 1) by lia. subst d.
    destruct (m =? 1) eqn:E1.
    + apply Z.eqb_eq in E1. subst m.
      replace (JSDate.daysFromCivil y 1 1 - 1) with (JSDate.daysFromCivil (y - 1) 12 31).
      * apply civil_roundtrip; [lia | cbn; lia].
      * unfold JSDate.daysFromCivil. cbn [Z.leb Z.ltb Z.compare Pos.compare Pos.compare_cont].
        Z.to_euclidean_division_equations; lia.
    + apply Z.eqb_neq in E1.
      replace (JSDate.daysFromCivil y m 1 - 1)
        with (JSDate.daysFromCivil y (m - 1) (JSDate.daysInMonth y (m - 1))).
      * apply civil_roundtrip; [lia|].
        destruct (daysInMonth_cases y (m - 1)) as [H|[H|[H|H]]]; lia.
      * assert (m = 2 \/ m = 3 \/ m = 4 \/ m = 5 \/ m = 6 \/ m = 7 \/ m = 8 \/
                m = 9 \/ m = 10 \/ m = 11 \/ m = 12) as H by lia.
        unfold JSDate.daysFromCivil, JSDate.daysInMonth.
        repeat (destruct H as [-> | H]); subst;
          repeat match goal with
                 | |- context [Z.sub (Zpos ?a) (Zpos ?b)] =>
                     let v := eval vm_compute in (Z.sub (Zpos a) (Zpos b)) in
                     change (Z.sub (Zpos a) (Zpos b)) with v
                 end;
          cbn -[Z.div Z.mul Z.modulo Z.sub Z.add];
          try (Z.to_euclidean_division_equations; lia).
        destruct (JSDate.isLeap y) eqn:El.
        -- apply isLeap_spec in El. Z.to_euclidean_division_equations; lia.
        -- assert (~ (y mod 4 = 0 /\ (y mod 100 <> 0 \/ y mod 400 = 0)))
             by (intros C; apply isLeap_spec in C; congruence).
           Z.to_euclidean_division_equations; lia.
Qed.

(** The local day of midnight UTC, for an offset of less than a day. *)
Lemma local_day (D tza : Z) :
  - JSDate.msPerDay <= tza < JSDate.msPerDay ->
  (D * JSDate.msPerDay + tza) / JSDate.msPerDay = if 0 <=? tza then D else D - 1.
Proof.
  unfold JSDate.msPerDay. intros H. destruct (0 <=? tza) eqn:E.
  - apply Z.leb_le in E. Z.to_euclidean_division_equations; lia.
  - apply Z.leb_gt in E. Z.to_euclidean_division_equations; lia.
Qed.

Lemma digitString_spec (n : nat) (s : string) (v : Z) :
  digitString n s v = true -> Digits n s /\ JSDate.digitsVal s = v.
Proof.
  unfold digitString, Digits. rewrite !andb_true_iff, Nat.eqb_eq, Z.eqb_eq, forallb_forall.
  intros [[H1 H2] H3]. repeat split; try assumption.
  apply List.Forall_forall. exact H2.
Qed.

(** [toString] writes the years 1000 to 9999 in four digits that read
    back as the year: by enumeration. *)
Lemma years_checked :
  forallb (fun n => digitString 4 (JSDate.toString (Z.of_nat n)) (Z.of_nat n))
    (List.seq (Z.to_nat 1000) (Z.to_nat 9000)) = true.
Proof. vm_cast_no_check (eq_refl true). Qed.

Lemma toString_year (y : Z) :
  1000 <= y <= 9999 ->
  Digits 4 (JSDate.toString y) /\ JSDate.digitsVal (JSDate.toString y) = y.
Proof.
  intros Hy. apply digitString_spec.
  pose proof years_checked as H. rewrite forallb_forall in H.
  specialize (H (Z.to_nat y)). rewrite Z2Nat.id in H by lia.
  apply H. apply in_seq. lia.
Qed.

Lemma two_checked :
  forallb (fun n => digitString 2 (JSDate.padStart2 (JSDate.toString (Z.of_nat n))) (Z.of_nat n))
    (List.seq 1 31) = true.
Proof. vm_compute. reflexivity. Qed.

Lemma padStart2_digits (n : Z) :
  1 <= n <= 31 ->
  Digits 2 (JSDate.padStart2 (JSDate.toString n)) /\
  JSDate.digitsVal (JSDate.padStart2 (JSDate.toString n)) = n.
Proof.
  intros Hn. apply digitString_spec.
  pose proof two_checked as H. rewrite forallb_forall in H.
  specialize (H (Z.to_nat n)). rewrite Z2Nat.id in H by lia.
  apply H. apply in_seq. lia.
Qed.

Lemma dash_not_digit (c : ascii) : JS.isDigit c = true -> Ascii.eqb c "-" = false.
Proof. intros H. apply (digit_facts c H). Qed.

Lemma iso_parts (ys ms ds : string) :
  Digits 4 ys -> Digits 2 ms -> Digits 2 ds ->
  JS.split "-" (ys ++ "-" ++ ms ++ "-" ++ ds) = [ys; ms; ds] /\
  Spec.yearMonth (ys ++ "-" ++ ms ++ "-" ++ ds) = ys ++ "-" ++ ms.
Proof.
  intros Hy Hm Hd. digits Hy. digits Hm. digits Hd.
  cbv beta iota delta [String.append]. cbn [JS.split].
  repeat match goal with
         | H : JS.isDigit ?c = true |- _ => rewrite ?(dash_not_digit c H); clear H
         end.
  split; reflexivity.
Qed.

Lemma parse_isoDate (y m d : Z) :
  ValidDate y m d ->
  JSDate.parse (isoDate y m d) = Some (JSDate.daysFromCivil y m d * JSDate.msPerDay) /\
  Spec.yearMonth (isoDate y m d) =
    JSDate.toString y ++ "-" ++ JSDate.padStart2 (JSDate.toString m).
Proof.
  intros (Hy & Hm & Hd).
  assert (Hd31 : 1 <= d <= 31).
  { destruct (daysInMonth_cases y m Hm) as [H|[H|[H|H]]]; lia. }
  destruct (toString_year y Hy) as [Dy Vy].
  destruct (padStart2_digits m ltac:(lia)) as [Dm Vm].
  destruct (padStart2_digits d Hd31) as [Dd Vd].
  destruct (iso_parts _ _ _ Dy Dm Dd) as [Hs Hym].
  unfold isoDate. split; [|exact Hym].
  unfold JSDate.parse. rewrite (test_iso _ _ _ Dy Dm Dd), Hs, Vy, Vm, Vd.
  replace ((1 <=? m) && (m <=? 12) && (1 <=? d) && (d <=? JSDate.daysInMonth y m))
    with true; [reflexivity|].
  symmetry. rewrite !andb_true_iff, !Z.leb_le. lia.
Qed.

(** X19. What [ym] answers for a date of the calendar, by the zone of the
    host: at UTC and east of it, and from the 2nd of the month on, the
    year-month of the date; west of UTC on the 1st, the month before. *)
Theorem ym_by_zone (tza y m d : Z) :
  ValidDate y m d ->
  - JSDate.msPerDay <= tza < JSDate.msPerDay ->
  ym tza (isoDate y m d) =
    if (0 <=? tza) || (2 <=? d) then Spec.yearMonth (isoDate y m d)
    else if m =? 1 then JSDate.toString (y - 1) ++ "-12"
    else JSDate.toString y ++ "-" ++ JSDate.padStart2 (JSDate.toString (m - 1)).
Proof.
  intros Hv Hz.
  destruct (parse_isoDate y m d Hv) as [Hp Hym].
  destruct Hv as (Hy & Hm & Hd).
  unfold ym. rewrite Hp, Hym.
  unfold JSDate.getFullYear, JSDate.getMonth. rewrite (local_day _ tza Hz).
  destruct (0 <=? tza); cbn [orb].
  - rewrite (civil_roundtrip y m d Hm Hd). cbn [fst snd].
    replace (m - 1 + 1) with m by ring. reflexivity.
  - rewrite (day_before y m d Hm Hd).
    destruct (2 <=? d).
    + cbn [fst snd]. replace (m - 1 + 1) with m by ring. reflexivity.
    + destruct (m =? 1); cbn [fst snd].
      * reflexivity.
      * replace (m - 1 - 1 + 1) with (m - 1) by ring. reflexivity.
Qed.

Lemma ym_east (tza y m d : Z) :
  ValidDate y m d -> 0 <= tza < JSDate.msPerDay ->
  ym tza (isoDate y m d) = Spec.yearMonth (isoDate y m d).
Proof.
  intros Hv Hz.
  destruct (parse_isoDate y m d Hv) as [Hp Hym].
  destruct Hv as (Hy & Hm & Hd).
  unfold ym. rewrite Hp, Hym.
  unfold JSDate.getFullYear, JSDate.getMonth.
  rewrite (local_day _ tza) by (unfold JSDate.msPerDay in *; lia).
  replace (0 <=? tza) with true by (symmetry; apply Z.leb_le; lia).
  rewrite (civil_roundtrip y m d Hm Hd). cbn [fst snd].
  replace (m - 1 + 1) with m by ring. reflexivity.
Qed.

(** X20. On a host at UTC or east of it the month filter keeps the
    transactions whose date has the target year-month, in their order. *)
Theorem txMonth_at_or_east_of_utc (tza : Z) (tx : list Tx) (month : string) :
  0 <= tza < JSDate.msPerDay ->
  Forall (fun t => exists y m d, ValidDate y m d /\ date t = isoDate y m d) tx ->
  txMonth tza tx month = Spec.monthTransactions tx month.
Proof.
  intros Hz Hall. unfold txMonth, Spec.monthTransactions.
  induction Hall as [|t l (y & m & d & Hv & Hd) _ IH]; [reflexivity|].
  cbn [List.filter]. rewrite IH, Hd.
  rewrite (ym_east tza y m d Hv Hz). reflexivity.
Qed.

(** The aggregator example of the specification, on a host whose zone is
    UTC. *)
Example aggregator_example_utc :
  txMonth 0 [salary; groceries] "2025-09" = [salary; groceries] /\
  receitaMes [salary; groceries] = 1000%Q /\
  despesaMes [salary; groceries] = 200%Q /\
  resultadoMes [salary; groceries] = 800%Q /\
  gastoPorCategoria [salary; groceries] = {[ "Food" := Num 200 ]}.
Proof. vm_compute. repeat split. Qed.

(** C7 fails on a host west of UTC.  [new Date("2025-09-01")] is midnight
    UTC, which three hours west of UTC is still 31 August: [ym] answers
    [2025-08], and the month filter for [2025-09] drops the transaction
    although the year-month of its date is [2025-09]. *)
Theorem ym_first_day_west_of_utc :
  ym utcMinus3 "2025-09-01" = "2025-08" /\
  txMonth utcMinus3 [salary; groceries] "2025-09" = [groceries] /\
  Spec.monthTransactions [salary; groceries] "2025-09" = [salary; groceries] /\
  receitaMes (txMonth utcMinus3 [salary; groceries] "2025-09") = 0%Q.
Proof. vm_compute. repeat split. Qed.

End MonthFacts.

Lemma valid_2025_09_01 : ValidDate 2025 9 1.
Proof. unfold ValidDate. vm_compute. repeat split; discriminate. Qed.

Lemma ym_by_zone_witness :
  ym utcMinus3 (isoDate 2025 9 1) = "2025-08".
Proof.
  apply (ym_by_zone utcMinus3 2025 9 1 valid_2025_09_01).
  unfold utcMinus3, JSDate.msPerDay. lia.
Defined.

Lemma txMonth_at_or_east_of_utc_witness :
  Aggregator.txMonth 3600000 [salary; groceries] "2025-09" = [salary; groceries].
Proof.
  apply (txMonth_at_or_east_of_utc 3600000 [salary; groceries] "2025-09").
  - unfold JSDate.msPerDay. lia.
  - repeat constructor.
    + exists 2025, 9, 1. split; [exact valid_2025_09_01 | reflexivity].
    + exists 2025, 9, 2. split; [|reflexivity].
      unfold ValidDate. vm_compute. repeat split; discriminate.
Defined.

(** ** Backup *)

Section BackupFacts.

Import Backup.







End BackupFacts.

(** ** State handlers *)

Section HandlerFacts.

Import Handlers RuleEngine.

Context {host : Host}.

Lemma removeTx_absent (tx : list Tx) (id : string) :
  (forall t, In t tx -> tx_id t <> id) -> removeTx tx id = tx.
Proof.
  intros H. unfold removeTx. induction tx as [|t tx IH]; [reflexivity|].
  cbn [List.filter].
  assert (E : String.eqb (tx_id t) id = false)
    by (apply String.eqb_neq, H; left; reflexivity).
  rewrite E. cbn [negb]. f_equal. apply IH.
  intros t' Hin. apply H. right. exact Hin.
Qed.

Lemma removeTx_present (tx : list Tx) (t : Tx) :
  List.NoDup (List.map tx_id tx) -> In t tx ->
  exists before after,
    tx = (before ++ t :: after)%list /\
    removeTx tx (tx_id t) = (before ++ after)%list.
Proof.
  intros Hnd Hin. induction tx as [|x tx IH]; [destruct Hin|].
  cbn [List.map] in Hnd. apply List.NoDup_cons_iff in Hnd as [Hx Hnd].
  destruct Hin as [-> | Hin].
  - exists [], tx. split; [reflexivity|].
    unfold removeTx. cbn [List.filter]. rewrite String.eqb_refl. cbn [negb app].
    apply removeTx_absent. intros t' Hin' Heq.
    apply Hx. rewrite <- Heq. apply in_map, Hin'.
  - destruct (IH Hnd Hin) as (before & after & -> & Hrm).
    exists (x :: before), after. split; [reflexivity|].
    unfold removeTx in *. cbn [List.filter].
    assert (E : String.eqb (tx_id x) (tx_id t) = false).
    { apply String.eqb_neq. intros Heq. apply Hx. rewrite Heq.
      apply in_map, Hin. }
    rewrite E. cbn [negb app]. f_equal. exact Hrm.
Qed.

(** X1. With distinct ids, [removeTx] takes out exactly the transaction of
    that id and keeps the others in their order; with no such id the list
    is unchanged; and no transaction of that id is ever left. *)
Theorem removeTx_exactly_one (tx : list Tx) (id : string) :
  (forall t, In t (removeTx tx id) -> tx_id t <> id) /\
  ((forall t, In t tx -> tx_id t <> id) -> removeTx tx id = tx) /\
  (List.NoDup (List.map tx_id tx) ->
   forall t, In t tx -> tx_id t = id ->
     exists before after,
       tx = (before ++ t :: after)%list /\
       removeTx tx id = (before ++ after)%list /\
       length (removeTx tx id) = pred (length tx)).
Proof.
  split; [|split].
  - intros t Hin. apply filter_In in Hin as [_ Hne].
    apply negb_true_iff, String.eqb_neq in Hne. exact Hne.
  - apply removeTx_absent.
  - intros Hnd t Hin <-.
    destruct (removeTx_present tx t Hnd Hin) as (before & after & Htx & Hrm).
    exists before, after. repeat split; try assumption.
    rewrite Hrm, Htx, !length_app. cbn [length]. lia.
Qed.

Lemma spread_empty (t : Tx) : spread t emptyPatch = t.
Proof. destruct t; reflexivity. Qed.

(** X2. [updateTx] with a patch that does not carry an [id] keeps the length
    and the sequence of ids; it leaves every transaction of another id as
    it is, and the whole list when no transaction has the id or the patch
    is empty.  Removing the id afterwards is the same as removing it
    before. *)
Theorem updateTx_touches_only_id (tx : list Tx) (id : string) (patch : Patch) :
  p_id patch = None ->
  length (updateTx tx id patch) = length tx /\
  List.map tx_id (updateTx tx id patch) = List.map tx_id tx /\
  (forall i t, nth_error tx i = Some t -> tx_id t <> id ->
     nth_error (updateTx tx id patch) i = Some t) /\
  (forall i t, nth_error tx i = Some t -> tx_id t = id ->
     nth_error (updateTx tx id patch) i = Some (spread t patch)) /\
  ((forall t, In t tx -> tx_id t <> id) -> updateTx tx id patch = tx) /\
  updateTx tx id emptyPatch = tx /\
  removeTx (updateTx tx id patch) id = removeTx tx id.
Proof.
  intros Hp. unfold updateTx. repeat split.
  - apply length_map.
  - rewrite map_map. apply map_ext. intros t.
    destruct (String.eqb (tx_id t) id); [|reflexivity].
    unfold spread. cbn [tx_id]. rewrite Hp. reflexivity.
  - intros i t Hi Hne. rewrite nth_error_map, Hi. cbn [option_map].
    apply String.eqb_neq in Hne. rewrite Hne. reflexivity.
  - intros i t Hi He. rewrite nth_error_map, Hi. cbn [option_map].
    apply String.eqb_eq in He. rewrite He. reflexivity.
  - intros Hno. rewrite <- (map_id tx) at 2. apply map_ext_in.
    intros t Hin. specialize (Hno t Hin). apply String.eqb_neq in Hno.
    rewrite Hno. reflexivity.
  - rewrite <- (map_id tx) at 2. apply map_ext. intros t.
    destruct (String.eqb (tx_id t) id); [apply spread_empty | reflexivity].
  - unfold removeTx. induction tx as [|t tx IH]; [reflexivity|].
    cbn [List.map List.filter].
    destruct (String.eqb (tx_id t) id) eqn:E.
    + unfold spread at 1. cbn [tx_id]. rewrite Hp. cbn [over]. rewrite E.
      cbn [negb]. exact IH.
    + rewrite E. cbn [negb]. f_equal. exact IH.
Qed.

(** X3. A category picked in the table survives the rule engine: after
    [updateTx(id, { category: c })] with [c] not empty, [applyRules]
    returns the transaction of that id with category [c], whatever the
    rules. *)
Theorem manual_category_survives_rules
    (tx : list Tx) (rules : list Rule) (id c : string) (i : nat) (t : Tx) :
  c <> "" -> nth_error tx i = Some t -> tx_id t = id ->
  nth_error (applyRules (updateTx tx id (categoryPatch c)) rules) i
  = Some (withCategory t c).
Proof.
  intros Hc Hi Hid. unfold applyRules, updateTx.
  rewrite !nth_error_map, Hi. cbn [option_map].
  apply String.eqb_eq in Hid. rewrite Hid. f_equal.
  unfold categorize. cbn [spread categoryPatch category p_category over].
  assert (E : JS.nonEmpty c = true) by (apply nonEmpty_true, Hc).
  cbn [JS.truthy]. rewrite E. reflexivity.
Qed.

End HandlerFacts.

Lemma updateTx_touches_only_id_witness :
  length (Handlers.updateTx [salary; groceries] "b" (Handlers.descriptionPatch "feira")) = 2%nat /\
  Handlers.removeTx (Handlers.updateTx [salary; groceries] "b" (Handlers.descriptionPatch "feira")) "b"
    = Handlers.removeTx [salary; groceries] "b".
Proof.
  pose proof (updateTx_touches_only_id [salary; groceries] "b"
                (Handlers.descriptionPatch "feira") eq_refl) as H.
  split; [apply H | apply H].
Defined.

Lemma manual_category_survives_rules_witness :
  nth_error
    (RuleEngine.applyRules (Handlers.updateTx [salary; groceries] "a" (Handlers.categoryPatch "Lazer"))
       [sampleRule "salary" "Outros" 10]) 0
  = Some (withCategory salary "Lazer").
Proof.
  apply (manual_category_survives_rules _ _ "a" "Lazer" 0%nat salary);
    [discriminate | reflexivity | reflexivity].
Defined.

(** ** Budget fractions *)

Section BudgetHandlerFacts.

Import Handlers BudgetEval Aggregator.
Local Open Scope Q_scope.

Lemma clamp_unit (pct : Q) : UnitFraction (Qmax 0 (Qmin 1 pct)).
Proof.
  split.
  - apply Q.le_max_l.
  - apply Q.max_lub; [discriminate | apply Q.le_min_l].
Qed.

Lemma clamp_cases (pct : Q) :
  (0 <= pct <= 1 -> Qmax 0 (Qmin 1 pct) == pct) /\
  (pct <= 0 -> Qmax 0 (Qmin 1 pct) == 0) /\
  (1 <= pct -> Qmax 0 (Qmin 1 pct) == 1).
Proof.
  repeat split.
  - intros [H0 H1]. rewrite (Q.min_r 1 pct H1). apply Q.max_r, H0.
  - intros H. apply Q.max_l.
    apply Qle_trans with pct; [apply Q.le_min_r | exact H].
  - intros H. rewrite (Q.min_l 1 pct H). apply Q.max_r. discriminate.
Qed.

Lemma DEFAULT_BUDGET_unit : map_Forall (fun _ v => UnitFraction v) DEFAULT_BUDGET.
Proof.
  unfold DEFAULT_BUDGET. apply map_Forall_to_list.
  rewrite map_to_list_to_map.
  - repeat constructor; discriminate.
  - apply (bool_decide_unpack _). vm_compute. exact I.
Qed.

(** X4. [setBudgetPct] stores the fraction clamped to 0..1 under the category
    and touches no other category; a budget whose fractions all lie in
    0..1, as the default budget does, stays so. *)
Theorem setBudgetPct_clamps (budget : gmap string Q) (cat : string) (pct : Q) :
  (exists v, setBudgetPct budget cat pct !! cat = Some v /\
     UnitFraction v /\
     (0 <= pct <= 1 -> v == pct) /\ (pct <= 0 -> v == 0) /\ (1 <= pct -> v == 1)) /\
  (forall other, other <> cat -> setBudgetPct budget cat pct !! other = budget !! other) /\
  (map_Forall (fun _ v => UnitFraction v) budget ->
   map_Forall (fun _ v => UnitFraction v) (setBudgetPct budget cat pct)) /\
  map_Forall (fun _ v => UnitFraction v) DEFAULT_BUDGET.
Proof.
  unfold setBudgetPct. split; [|split; [|split]].
  - exists (Qmax 0 (Qmin 1 pct)). rewrite lookup_insert_eq.
    split; [reflexivity|]. split; [apply clamp_unit|]. apply clamp_cases.
  - intros other Hne. apply lookup_insert_ne. congruence.
  - intros Hall. apply map_Forall_insert_2; [apply clamp_unit | exact Hall].
  - apply DEFAULT_BUDGET_unit.
Qed.




End BudgetHandlerFacts.



(** ** Daily series *)

Section SeriesFacts.

Import Aggregator Views.
Local Open Scope Q_scope.









End SeriesFacts.

(** ** Rule list: order, dead rules, [addRule] *)

Section RuleListFacts.

Import Handlers RuleEngine.

Context {host : Host}.

Lemma StronglySorted_filter {A : Type} (R : A -> A -> Prop) (p : A -> bool) (l : list A) :
  StronglySorted R l -> StronglySorted R (List.filter p l).
Proof.
  induction 1 as [|x l Hs IH Hx]; cbn [List.filter]; [constructor|].
  destruct (p x); [|exact IH]. constructor; [exact IH|].
  apply List.Forall_forall. intros y Hy. apply filter_In in Hy as [Hy _].
  rewrite List.Forall_forall in Hx. apply Hx, Hy.
Qed.

Lemma filter_comm {A : Type} (f g : A -> bool) (l : list A) :
  List.filter f (List.filter g l) = List.filter g (List.filter f l).
Proof.
  induction l as [|x l IH]; cbn [List.filter]; [reflexivity|].
  destruct (f x) eqn:Ef, (g x) eqn:Eg; cbn [List.filter];
    rewrite ?Ef, ?Eg, IH; reflexivity.
Qed.

(** Sorting a sublist picked by a test is picking from the sorted list. *)
Lemma sortByPriority_filter (p : Rule -> bool) (l : list Rule) :
  sortByPriority (List.filter p l) = List.filter p (sortByPriority l).
Proof.
  symmetry. apply sortByPriority_unique.
  - apply StronglySorted_filter, sortByPriority_sorted.
  - intros q. rewrite filter_comm, sortByPriority_stable. apply filter_comm.
Qed.

(** X12. The rules the engine consults are the enabled rows of the rules table
    in the order the table shows them: the table sorts all the rules with
    the comparator the engine sorts the enabled ones with. *)
Theorem activeRules_in_table_order (rules : list Rule) :
  activeRules rules = List.filter enabled (sortByPriority rules) /\
  (Sorted.StronglySorted byPriority rules -> activeRules rules = List.filter enabled rules).
Proof.
  split; [apply sortByPriority_filter|].
  intros Hs. unfold activeRules. symmetry. apply sortByPriority_unique.
  - apply StronglySorted_filter, Hs.
  - reflexivity.
Qed.

Lemma find_filter {A : Type} (f p : A -> bool) (l : list A) :
  (forall x, In x l -> f x = true -> p x = true) ->
  List.find f (List.filter p l) = List.find f l.
Proof.
  intros H. induction l as [|x l IH]; [reflexivity|].
  cbn [List.filter List.find].
  assert (IH' : List.find f (List.filter p l) = List.find f l)
    by (apply IH; intros y Hy; apply H; right; exact Hy).
  destruct (p x) eqn:Ep; cbn [List.find].
  - rewrite IH'. reflexivity.
  - destruct (f x) eqn:Ef; [|exact IH'].
    rewrite (H x (or_introl eq_refl) Ef) in Ep. discriminate.
Qed.

Lemma ruleHits_live (d : string) (r : Rule) :
  enabled r = true -> ruleHits d r = true -> live r = true.
Proof.
  intros He Hh. unfold live. rewrite He. unfold ruleHits in Hh.
  destruct (kws r); [discriminate | reflexivity].
Qed.

Lemma activeRules_live (R : list Rule) :
  activeRules (List.filter live R) = List.filter live (activeRules R).
Proof.
  unfold activeRules. rewrite filter_comm. apply sortByPriority_filter.
Qed.

Lemma categorize_live (R : list Rule) (t : Tx) :
  categorize (activeRules (List.filter live R)) t = categorize (activeRules R) t.
Proof.
  unfold categorize. rewrite activeRules_live, find_filter; [reflexivity|].
  intros r Hin Hh. apply (ruleHits_live (desc t)); [|exact Hh].
  apply activeRules_In in Hin. apply Hin.
Qed.

(** X13. Rules that are disabled, and rules whose keyword text leaves nothing
    after splitting and trimming, never categorize anything: dropping them
    changes no result, and with no other rule (in particular with no rule
    at all) the engine returns its input. *)
Theorem applyRules_ignores_dead_rules (T : list Tx) (R : list Rule) :
  applyRules T (List.filter live R) = applyRules T R /\
  ((forall r, In r R -> live r = false) -> applyRules T R = T).
Proof.
  assert (H1 : applyRules T (List.filter live R) = applyRules T R).
  { unfold applyRules. apply map_ext. intros t. apply categorize_live. }
  split; [exact H1|].
  intros Hdead. rewrite <- H1.
  assert (E : List.filter live R = []).
  { clear H1. induction R as [|r R IH]; [reflexivity|]. cbn [List.filter].
    rewrite (Hdead r (or_introl eq_refl)). apply IH.
    intros r' Hin. apply Hdead. right. exact Hin. }
  rewrite E. unfold applyRules, activeRules. cbn [List.filter sortByPriority].
  rewrite <- (map_id T) at 2. apply map_ext. intros t.
  unfold categorize. destruct (JS.truthy (category t)); reflexivity.
Qed.

Lemma insertByPriority_last (a x : Rule) (s : list Rule) :
  priority a <= priority x ->
  insertByPriority a (s ++ [x]) = (insertByPriority a s ++ [x])%list.
Proof.
  intros Ha. induction s as [|y s IH]; cbn [app insertByPriority].
  - apply Z.leb_le in Ha. rewrite Ha. reflexivity.
  - destruct (priority a <=? priority y); [reflexivity|].
    rewrite IH. reflexivity.
Qed.

Lemma sortByPriority_last (l : list Rule) (x : Rule) :
  Forall (fun r => priority r <= priority x) l ->
  sortByPriority (l ++ [x]) = (sortByPriority l ++ [x])%list.
Proof.
  induction 1 as [|a l Ha _ IH]; [reflexivity|].
  cbn [app sortByPriority]. rewrite IH. apply insertByPriority_last, Ha.
Qed.

Lemma Ascending_last (rules : list Rule) :
  Ascending rules -> Forall (fun r => priority r <= lastPriority rules) rules.
Proof.
  unfold lastPriority. induction 1 as [|a l Hs IH Ha]; [constructor|].
  destruct l as [|b l'].
  - constructor; [cbn; lia | constructor].
  - change (List.last (List.map priority (a :: b :: l')) 0)
      with (List.last (List.map priority (b :: l')) 0).
    constructor.
    + inversion Ha as [|? ? Hab _]; subst.
      inversion IH as [|? ? Hb _]; subst. lia.
    + exact IH.
Qed.

Lemma find_app_some {A : Type} (f : A -> bool) (l l' : list A) (x : A) :
  List.find f l = Some x -> List.find f (l ++ l') = Some x.
Proof.
  induction l as [|y l IH]; cbn [List.find app]; [discriminate|].
  destruct (f y); [auto | exact IH].
Qed.

(** X14. On a list of rules with strictly growing priorities, which is what
    [addRule] builds from the empty list, [addRule] keeps the priorities
    growing and the new rule is consulted after all the others: every
    transaction that came out categorized before comes out the same. *)
Theorem addRule_goes_last (id : string) (rules : list Rule) (T : list Tx) :
  Ascending rules ->
  Ascending (addRule id rules) /\
  (exists new, addRule id rules = (rules ++ [new])%list /\
     priority new = lastPriority rules + 10 /\
     activeRules (addRule id rules) = (activeRules rules ++ [new])%list) /\
  (forall i t, nth_error (applyRules T rules) i = Some t ->
     JS.truthy (category t) = true ->
     nth_error (applyRules T (addRule id rules)) i = Some t).
Proof.
  intros Hasc. pose proof (Ascending_last rules Hasc) as Hlast.
  set (new := {| rule_id := id; keywords := "ifood, mcdonalds";
                 rule_category := "Alimentação"; enabled := true;
                 priority := lastPriority rules + 10 |}).
  assert (Hact : activeRules (rules ++ [new]) = (activeRules rules ++ [new])%list).
  { unfold activeRules. rewrite List.filter_app. cbn [List.filter enabled new].
    apply sortByPriority_last.
    apply List.Forall_forall. intros r Hr. apply filter_In in Hr as [Hr _].
    rewrite List.Forall_forall in Hlast. specialize (Hlast r Hr). cbn [priority new]. lia. }
  split; [|split].
  - unfold addRule. fold new. unfold Ascending in *.
    clear Hact. induction Hasc as [|a l Hs IH Ha]; cbn [app].
    + constructor; constructor.
    + constructor.
      * unfold Ascending in *. 
        assert (Hl : Forall (fun r => priority r <= lastPriority (a :: l)) l).
        { inversion Hlast; assumption. }
        clear IH.
        (* the tail with the new rule appended stays ascending *)
        assert (G : forall l0, StronglySorted (fun a b => priority a < priority b) l0 ->
                      Forall (fun r => priority r < priority new) l0 ->
                      StronglySorted (fun a b => priority a < priority b) (l0 ++ [new])%list).
        { induction 1 as [|b l0 Hs0 IH0 Hb]; intros Hf; cbn [app].
          - constructor; constructor.
          - inversion Hf; subst. constructor; [apply IH0; assumption|].
            apply Forall_app. split; [exact Hb | constructor; [assumption | constructor]]. }
        apply G; [exact Hs|].
        eapply List.Forall_impl; [|exact Hl]. cbn [priority new]. intros r Hr. lia.
      * apply Forall_app. split; [exact Ha|].
        constructor; [|constructor]. inversion Hlast; subst. cbn [priority new]. lia.
  - exists new. repeat split. exact Hact.
  - intros i t Hi Ht. unfold addRule. fold new. unfold applyRules in *.
    rewrite nth_error_map in *. destruct (nth_error T i) as [t0|]; [|discriminate].
    cbn [option_map] in *. injection Hi as Hi. f_equal. rewrite Hact.
    rewrite <- Hi in *. clear Hi.
    unfold categorize in *. destruct (JS.truthy (category t0)) eqn:E0; [reflexivity|].
    destruct (List.find (ruleHits (desc t0)) (activeRules rules)) as [rule|] eqn:Ef.
    + rewrite (find_app_some _ _ _ _ Ef). reflexivity.
    + rewrite E0 in Ht. discriminate.
Qed.

End RuleListFacts.

Lemma addRule_goes_last_witness :
  Ascending (Handlers.addRule "r1" []) /\
  Ascending (Handlers.addRule "r2" (Handlers.addRule "r1" [])).
Proof.
  assert (H : Ascending (Handlers.addRule "r1" [])) by (repeat constructor).
  split; [exact H | apply (addRule_goes_last "r2" _ [] H)].
Defined.

(** ** Normaliser: the value of a Brazilian amount *)

Section AmountValueFacts.

Import Normalizer.

Lemma trimEnd_no_space (s : string) :
  forallb plain (list_ascii_of_string s) = true -> JS.trimEnd s = s.
Proof.
  induction s as [|c r IH]; [reflexivity|].
  cbn [list_ascii_of_string forallb]. intros H.
  apply andb_true_iff in H as [Hc Hr].
  rewrite (trimEnd_cons c r Hc), (IH Hr). reflexivity.
Qed.

Lemma trim_no_space (s : string) :
  forallb plain (list_ascii_of_string s) = true -> JS.trim s = s.
Proof.
  intros H. unfold JS.trim.
  replace (JS.trimStart s) with s; [apply trimEnd_no_space, H|].
  destruct s as [|c r]; [reflexivity|].
  cbn [list_ascii_of_string forallb] in H.
  apply andb_true_iff in H as [Hc _].
  symmetry. apply trimStart_plain, Hc.
Qed.

Lemma append_cons (c : ascii) (a b : string) :
  String c a ++ b = String c (a ++ b).
Proof. reflexivity. Qed.

Lemma append_nil (b : string) : "" ++ b = b.
Proof. reflexivity. Qed.

Lemma chars_app (a b : string) :
  list_ascii_of_string (a ++ b) = (list_ascii_of_string a ++ list_ascii_of_string b)%list.
Proof.
  induction a as [|c a IH]; [reflexivity|].
  change (String c a ++ b) with (String c (a ++ b)).
  cbn [list_ascii_of_string app]. rewrite IH. reflexivity.
Qed.

Lemma forallb_weaken {A : Type} (p q : A -> bool) (l : list A) :
  (forall x, p x = true -> q x = true) -> forallb p l = true -> forallb q l = true.
Proof.
  intros Hpq H. rewrite forallb_forall in *. intros x Hx. apply Hpq, H, Hx.
Qed.

Lemma removeAll_app (c : ascii) (a b : string) :
  removeAll c (a ++ b) = removeAll c a ++ removeAll c b.
Proof.
  induction a as [|x a IH]; [reflexivity|].
  rewrite append_cons. cbn [removeAll].
  destruct (Ascii.eqb x c); rewrite ?append_cons, IH; reflexivity.
Qed.

Lemma removeAll_absent (c : ascii) (s : string) :
  JS.hasChar s c = false -> removeAll c s = s.
Proof.
  intros H. apply hasChar_false in H. unfold Contains in H.
  induction s as [|x r IH]; [reflexivity|]. cbn [removeAll].
  destruct (Ascii.eqb x c) eqn:E.
  - apply Ascii.eqb_eq in E. exfalso. apply H. left. exact E.
  - rewrite IH; [reflexivity|]. intros Hin. apply H. right. exact Hin.
Qed.

Lemma allDigits_no (c : ascii) (s : string) :
  JS.isDigit c = false -> allDigits s = true -> JS.hasChar s c = false.
Proof.
  intros Hc Hs. apply hasChar_false. unfold Contains. intros Hin.
  unfold allDigits in Hs. rewrite forallb_forall in Hs.
  rewrite (Hs c Hin) in Hc. discriminate.
Qed.

Lemma removeAll_digits (g : string) :
  digitsOrDots g = true -> allDigits (removeAll "." g) = true.
Proof.
  unfold digitsOrDots, allDigits. induction g as [|x r IH]; [reflexivity|].
  cbn [list_ascii_of_string forallb removeAll]. intros H.
  apply andb_true_iff in H as [Hx Hr].
  destruct (Ascii.eqb x ".") eqn:E; [apply IH, Hr|].
  cbn [list_ascii_of_string forallb]. rewrite orb_false_r in Hx.
  rewrite Hx, (IH Hr). reflexivity.
Qed.

Lemma removeAll_starts (g : string) :
  startsWithDigit g = true -> startsWithDigit (removeAll "." g) = true.
Proof.
  destruct g as [|x r]; [discriminate|]. cbn [startsWithDigit removeAll].
  intros Hx. destruct (digit_facts x Hx) as [_ [Hdot _]]. rewrite Hdot. exact Hx.
Qed.

Lemma hasChar_app (a b : string) (c : ascii) :
  JS.hasChar (a ++ b) c = JS.hasChar a c || JS.hasChar b c.
Proof.
  destruct (JS.hasChar (a ++ b) c) eqn:E.
  - apply hasChar_spec in E. unfold Contains in E. rewrite chars_app in E.
    apply in_app_or in E. symmetry. apply orb_true_iff.
    destruct E as [E|E]; [left | right]; apply hasChar_spec, E.
  - symmetry. apply orb_false_iff.
    split; apply hasChar_false; intros Hin;
      apply hasChar_false in E; apply E; unfold Contains in *;
      rewrite chars_app; apply in_or_app; auto.
Qed.

(** The rewriting of a Brazilian amount text: the separators go and the
    comma becomes the decimal point. *)
Lemma decimalPoint_brazilian (g fp : string) :
  digitsOrDots g = true -> allDigits fp = true ->
  decimalPoint (g ++ "," ++ fp) = removeAll "." g ++ "." ++ fp.
Proof.
  intros Hg Hfp. unfold decimalPoint.
  pose proof (removeAll_digits g Hg) as Hds.
  assert (Hc : JS.hasChar (g ++ "," ++ fp) "," = true).
  { rewrite hasChar_app. apply orb_true_iff. right. reflexivity. }
  assert (Hfd : JS.hasChar fp "." = false) by (apply allDigits_no; [reflexivity | exact Hfp]).
  assert (Hd : JS.hasChar (g ++ "," ++ fp) "." = JS.hasChar g ".").
  { rewrite hasChar_app. change ("," ++ fp) with (String "," fp).
    unfold JS.hasChar at 2. cbn [JS.includes JS.startsWith].
    change (Ascii.eqb "." ",") with false. cbn [andb orb].
    fold (JS.hasChar fp "."). rewrite Hfd. apply orb_false_r. }
  assert (Hpre : ~ Contains "," (removeAll "." g)).
  { apply hasChar_false, allDigits_no; [reflexivity | exact Hds]. }
  rewrite Hc, Hd. destruct (JS.hasChar g ".") eqn:Eg; cbn [andb negb].
  - rewrite removeAll_app. change ("," ++ fp) with (String "," fp).
    cbn [removeAll]. change (Ascii.eqb "," ".") with false. cbv iota.
    rewrite (removeAll_absent "." fp Hfd).
    apply (replaceFirst_spec "," "." _ fp Hpre).
  - rewrite (removeAll_absent "." g Eg) in *.
    apply (replaceFirst_spec "," "." g fp Hpre).
Qed.

Lemma digitVal_digit (c : ascii) :
  JS.isDigit c = true -> exists d, JSNumber.digitVal c = Some d.
Proof. unfold JSNumber.digitVal. intros ->. eauto. Qed.

(** [readDigits] on a string of digits: the value in base ten. *)
Lemma readDigits_all (ds : string) :
  allDigits ds = true ->
  forall acc n,
    JSNumber.readDigits ds acc n =
    (acc * 10 ^ Z.of_nat (String.length ds) + JSDate.digitsVal ds,
     (n + String.length ds)%nat, "").
Proof.
  unfold allDigits. induction ds as [|c r IH]; intros H acc n.
  - cbn. change (10 ^ Z.of_nat 0) with 1.
    apply (f_equal2 pair); [apply (f_equal2 pair); [ring | lia] | reflexivity].
  - cbn [list_ascii_of_string forallb] in H. apply andb_true_iff in H as [Hc Hr].
    destruct (digitVal_digit c Hc) as [d Hd].
    unfold JSDate.digitsVal. cbn [JSNumber.readDigits]. rewrite Hd.
    rewrite !(IH Hr). cbv iota. cbn [String.length].
    rewrite Nat2Z.inj_succ, Z.pow_succ_r by lia.
    apply (f_equal2 pair); [apply (f_equal2 pair); [ring | lia] | reflexivity].
Qed.

(** [readDigits] stops at the first character that is no digit. *)
Lemma readDigits_stop (ds : string) (x : ascii) (r : string) :
  allDigits ds = true -> JS.isDigit x = false ->
  forall acc n,
    JSNumber.readDigits (ds ++ String x r) acc n =
    (acc * 10 ^ Z.of_nat (String.length ds) + JSDate.digitsVal ds,
     (n + String.length ds)%nat, String x r).
Proof.
  intros Hds Hx. unfold allDigits in Hds.
  induction ds as [|c ds IH]; intros acc n.
  - rewrite append_nil. cbn [JSNumber.readDigits]. unfold JSNumber.digitVal. rewrite Hx.
    cbn. change (10 ^ Z.of_nat 0) with 1.
    apply (f_equal2 pair); [apply (f_equal2 pair); [ring | lia] | reflexivity].
  - cbn [list_ascii_of_string forallb] in Hds. apply andb_true_iff in Hds as [Hc Hr].
    destruct (digitVal_digit c Hc) as [d Hd].
    rewrite append_cons. cbn [JSNumber.readDigits]. rewrite Hd, (IH Hr).
    pose proof (readDigits_all ds Hr (10 * 0 + d) 1%nat) as Ha.
    unfold JSDate.digitsVal at 2. cbn [JSNumber.readDigits]. rewrite Hd, Ha.
    cbv iota. cbn [String.length].
    rewrite Nat2Z.inj_succ, Z.pow_succ_r by lia.
    apply (f_equal2 pair); [apply (f_equal2 pair); [ring | lia] | reflexivity].
Qed.

Lemma digitVal_range (c : ascii) (d : Z) :
  JSNumber.digitVal c = Some d -> 0 <= d <= 9.
Proof.
  unfold JSNumber.digitVal, JS.isDigit.
  destruct (Nat.leb 48 (JS.code c)) eqn:E1; [|discriminate].
  destruct (Nat.leb (JS.code c) 57) eqn:E2; [|discriminate].
  cbn [andb]. intros [= <-].
  apply Nat.leb_le in E1, E2. lia.
Qed.

(** A string of digits reads as a number below the power of ten of its
    length. *)
Lemma digitsVal_range (ds : string) :
  allDigits ds = true -> 0 <= JSDate.digitsVal ds < 10 ^ Z.of_nat (String.length ds).
Proof.
  induction ds as [|c r IH]; intros H.
  - vm_compute. split; [discriminate | reflexivity].
  - pose proof H as Hall. unfold allDigits in H.
    cbn [list_ascii_of_string forallb] in H. apply andb_true_iff in H as [Hc Hr].
    destruct (digitVal_digit c Hc) as [d Hd].
    pose proof (digitVal_range c d Hd) as Hd9.
    specialize (IH Hr).
    assert (E : JSDate.digitsVal (String c r)
                = d * 10 ^ Z.of_nat (String.length r) + JSDate.digitsVal r).
    { unfold JSDate.digitsVal at 1. cbn [JSNumber.readDigits]. rewrite Hd.
      rewrite (readDigits_all r Hr (10 * 0 + d) 1%nat). cbv iota. ring. }
    rewrite E. cbn [String.length]. rewrite Nat2Z.inj_succ, Z.pow_succ_r by lia.
    assert (0 < 10 ^ Z.of_nat (String.length r)) by (apply Z.pow_pos_nonneg; lia).
    nia.
Qed.

Lemma unsignedDecimal_point (ds fp : string) :
  startsWithDigit ds = true -> allDigits ds = true -> allDigits fp = true ->
  JSNumber.unsignedDecimal (ds ++ "." ++ fp)
  = Some (Qmake (JSDate.digitsVal ds * 10 ^ Z.of_nat (String.length fp) + JSDate.digitsVal fp)
                (JSNumber.pow10 (Z.of_nat (String.length fp)))) /\
  (Qmake (JSDate.digitsVal ds * 10 ^ Z.of_nat (String.length fp) + JSDate.digitsVal fp)
         (JSNumber.pow10 (Z.of_nat (String.length fp)))
   == decimalValue ds fp)%Q.
Proof.
  intros Hs Hds Hfp. split.
  - unfold JSNumber.unsignedDecimal.
    change ("." ++ fp) with (String "." fp).
    rewrite (readDigits_stop ds "." fp Hds eq_refl), (readDigits_all fp Hfp).
    destruct ds as [|c ds']; [discriminate|].
    cbn [String.length Nat.add]. cbn [JSNumber.exponentPart].
    replace (0 * 10 ^ Z.of_nat (S (String.length ds')) + JSDate.digitsVal (String c ds'))
      with (JSDate.digitsVal (String c ds')) by ring.
    replace (0 * 10 ^ Z.of_nat (String.length fp) + JSDate.digitsVal fp)
      with (JSDate.digitsVal fp) by ring.
    reflexivity.
  - unfold decimalValue, JSNumber.pow10.
    set (k := Z.of_nat (String.length fp)).
    set (a := JSDate.digitsVal ds). set (b := JSDate.digitsVal fp).
    assert (Hk : 0 < 10 ^ k) by (apply Z.pow_pos_nonneg; lia).
    rewrite Qmake_Qdiv, Z2Pos.id by exact Hk.
    rewrite inject_Z_plus, inject_Z_mult.
    assert (Hn : ~ (inject_Z (10 ^ k) == 0)%Q).
    { intros E. unfold Qeq in E. cbn in E. lia. }
    field. exact Hn.
Qed.

Lemma no_space_brazilian (g fp : string) :
  digitsOrDots g = true -> allDigits fp = true ->
  forall x, x = ","%char \/ x = "."%char ->
  forallb plain (list_ascii_of_string (g ++ String x fp)) = true.
Proof.
  intros Hg Hfp x Hx. rewrite chars_app. cbn [list_ascii_of_string].
  rewrite forallb_app. apply andb_true_iff. split; [|cbn [forallb]; apply andb_true_iff; split].
  - eapply forallb_weaken; [|exact Hg]. intros c Hc. cbv beta in Hc.
    apply orb_true_iff in Hc as [Hc|Hc].
    + apply digit_plain, Hc.
    + apply Ascii.eqb_eq in Hc. subst c. reflexivity.
  - destruct Hx as [-> | ->]; reflexivity.
  - eapply forallb_weaken; [|exact Hfp]. intros c Hc. apply digit_plain, Hc.
Qed.

Lemma digits_are_digitsOrDots (s : string) :
  allDigits s = true -> digitsOrDots s = true.
Proof.
  apply forallb_weaken. intros c ->. reflexivity.
Qed.

Lemma removeAll_length (c : ascii) (s : string) :
  (String.length (removeAll c s) <= String.length s)%nat.
Proof.
  induction s as [|x r IH]; cbn [removeAll String.length]; [lia|].
  destruct (Ascii.eqb x c); cbn [String.length]; lia.
Qed.

(** A value [n / 10^k] with at most 300 digits before and after the point
    is in the range where numbers are finite, and is zero or above the
    range that rounds to zero. *)
Lemma rounded_in_range (n k j : Z) :
  0 <= k <= 300 -> 0 <= j <= 300 -> 0 <= n < 10 ^ j * 10 ^ k ->
  exists q, (q == Qmake n (JSNumber.pow10 k))%Q /\
            JSNumber.rounded (Qmake n (JSNumber.pow10 k)) = JSNumber.Finite q /\
            JSNumber.negate (JSNumber.rounded (Qmake n (JSNumber.pow10 k)))
            = JSNumber.Finite (- q).
Proof.
  intros Hk Hj Hn. unfold JSNumber.pow10.
  assert (Hp : 0 < 10 ^ k) by (apply Z.pow_pos_nonneg; lia).
  assert (Hjk : 10 ^ j <= 10 ^ 300 /\ 10 ^ k <= 10 ^ 300)
    by (split; apply Z.pow_le_mono_r; lia).
  assert (Hbig : 10 ^ 300 < 2 ^ 1024 - 2 ^ 970) by (vm_compute; reflexivity).
  assert (Hsmall : 10 ^ 300 < 2 ^ 1075) by (vm_compute; reflexivity).
  assert (Hpos : Z.pos (Z.to_pos (2 ^ 1075)) = 2 ^ 1075) by (apply Z2Pos.id; lia).
  unfold JSNumber.rounded.
  assert (Habs : Qabs (Qmake n (Z.to_pos (10 ^ k))) = Qmake n (Z.to_pos (10 ^ k))).
  { unfold Qabs. rewrite Z.abs_eq by lia. reflexivity. }
  rewrite Habs.
  assert (Ho : Qle_bool JSNumber.overflow (Qmake n (Z.to_pos (10 ^ k))) = false).
  { destruct (Qle_bool JSNumber.overflow (Qmake n (Z.to_pos (10 ^ k)))) eqn:E;
      [|reflexivity]. exfalso.
    apply Qle_bool_iff in E. unfold Qle, JSNumber.overflow, inject_Z in E.
    cbn [Qnum Qden] in E. rewrite Z2Pos.id in E by exact Hp.
    generalize dependent (2 ^ 1024 - 2 ^ 970). generalize dependent (10 ^ 300).
    intros T HT1 HT2 M HM E. nia. }
  rewrite Ho.
  destruct (Z.eq_dec n 0) as [-> | Hn0].
  - exists 0%Q. split; [reflexivity|].
    assert (Hu : Qle_bool (Qmake 0 (Z.to_pos (10 ^ k))) JSNumber.underflow = true)
      by (apply Qle_bool_iff; unfold Qle, JSNumber.underflow; cbn [Qnum Qden]; lia).
    rewrite Hu. split; reflexivity.
  - exists (Qmake n (Z.to_pos (10 ^ k))). split; [reflexivity|].
    assert (Hu : Qle_bool (Qmake n (Z.to_pos (10 ^ k))) JSNumber.underflow = false).
    { destruct (Qle_bool (Qmake n (Z.to_pos (10 ^ k))) JSNumber.underflow) eqn:E;
        [|reflexivity]. exfalso.
      apply Qle_bool_iff in E. unfold Qle, JSNumber.underflow in E.
      cbn [Qnum Qden] in E. rewrite Hpos in E. rewrite Z2Pos.id in E by exact Hp.
      generalize dependent (2 ^ 1075). generalize dependent (10 ^ 300).
      intros T HT1 HT2 M HM _ E. nia. }
    rewrite Hu. split; reflexivity.
Qed.

(** X16. The value of a Brazilian amount text.  For a text made of an integer
    part of digits that may carry [.] as thousands separators (anywhere
    after the first digit), a comma, and digits after it, neither part
    longer than 300 characters, the imported amount is finite: the integer
    read without the separators plus the digits after the comma as a
    decimal fraction; with [-] in front it is the opposite.  So
    [1.234,56] is 1234 + 56/100 and [723,11] is 723 + 11/100.  (Far
    longer parts leave the range of the numbers: the amount is then
    infinite, or zero.) *)
Theorem normAmount_brazilian_value (g fp : string) :
  startsWithDigit g = true -> digitsOrDots g = true -> allDigits fp = true ->
  (String.length g <= 300)%nat -> (String.length fp <= 300)%nat ->
  exists q,
    (q == decimalValue (removeAll "." g) fp)%Q /\
    normAmount (Some (g ++ "," ++ fp)) = JSNumber.Finite q /\
    normAmount (Some ("-" ++ g ++ "," ++ fp)) = JSNumber.Finite (- q).
Proof.
  intros Hs Hg Hfp Hlg Hlf.
  pose proof (removeAll_digits g Hg) as Hds.
  pose proof (removeAll_starts g Hs) as Hds0.
  destruct (unsignedDecimal_point _ fp Hds0 Hds Hfp) as [Hq Hv].
  assert (Hu : startsWithDigit (g ++ "," ++ fp) = true).
  { destruct g; [discriminate | exact Hs]. }
  assert (Ht : JS.trim (g ++ "," ++ fp) = g ++ "," ++ fp).
  { apply trim_no_space, no_space_brazilian; auto. }
  assert (Ht' : JS.trim (removeAll "." g ++ "." ++ fp) = removeAll "." g ++ "." ++ fp).
  { apply trim_no_space, no_space_brazilian; auto using digits_are_digitsOrDots. }
  destruct (trim_digit _ Hu) as [_ Ht1]. rewrite Ht in Ht1.
  assert (Hd : startsWithDigit (removeAll "." g ++ "." ++ fp) = true).
  { destruct (removeAll "." g); [discriminate | exact Hds0]. }
  pose proof (decimalPoint_brazilian g fp Hg Hfp) as Hdp.
  destruct (decimalPoint_digit _ Hu) as [_ Ht2]. rewrite Hdp in Ht2.
  destruct (trim_digit _ Hd) as [_ Ht3]. rewrite Ht' in Ht3.
  destruct (parseTrimmed_unsigned _ _ Hq) as [Hp Hm].
  pose proof (digitsVal_range _ Hds) as Ra.
  pose proof (digitsVal_range _ Hfp) as Rb.
  pose proof (removeAll_length "." g) as Hlen.
  destruct (rounded_in_range
              (JSDate.digitsVal (removeAll "." g) * 10 ^ Z.of_nat (String.length fp)
               + JSDate.digitsVal fp)
              (Z.of_nat (String.length fp))
              (Z.of_nat (String.length (removeAll "." g))))
    as [q [Eq [Hr Hn]]]; [lia | lia | nia |].
  exists q. split; [rewrite Eq; exact Hv|].
  unfold normAmount, JSNumber.Number.
  change ("-" ++ g ++ "," ++ fp) with (String "-" (g ++ "," ++ fp)).
  rewrite Ht, Ht1, Hdp, Ht2, Ht', Ht3, Hp, Hm, Hn, Hr.
  split; reflexivity.
Qed.

End AmountValueFacts.

Lemma normAmount_brazilian_value_witness :
  exists q,
    (q == decimalValue "12345678" "90")%Q /\
    Normalizer.normAmount (Some "12.345.678,90") = JSNumber.Finite q /\
    Normalizer.normAmount (Some "-12.345.678,90") = JSNumber.Finite (- q).
Proof.
  apply (normAmount_brazilian_value "12.345.678" "90");
    first [reflexivity | cbn; lia].
Defined.

(** ** Normaliser: stored dates; the import as a whole *)

Section DateFormFacts.

Import Normalizer.

Variable today : string.
Variable genericDate : string -> option string.

Lemma iso_no_space (s : string) :
  IsoShape s -> forallb plain (list_ascii_of_string s) = true.
Proof.
  intros (y & m & d & Hy & Hm & Hd & ->). digits Hy. digits Hm. digits Hd.
  cbv beta iota delta [String.append]. cbn [list_ascii_of_string forallb].
  repeat match goal with
         | H : JS.isDigit ?c = true |- _ =>
             rewrite (digit_plain c H); clear H
         end.
  reflexivity.
Qed.

Lemma iso_fixed (s : string) :
  IsoShape s -> normDate today genericDate (Some s) = s.
Proof.
  intros Hs. pose proof (trim_no_space s (iso_no_space s Hs)) as Ht.
  destruct Hs as (y & m & d & Hy & Hm & Hd & ->).
  unfold normDate. cbn [JS.orEmpty]. rewrite Ht, (test_iso y m d Hy Hm Hd).
  replace (JS.truthy (Some (y ++ "-" ++ m ++ "-" ++ d))) with true; [reflexivity|].
  destruct Hy as [Hl _]. destruct y; [discriminate Hl | reflexivity].
Qed.

(** X17. A date text of one of the two shapes the importer knows, with or
    without white space around it, is stored in the ISO shape, and the
    stored text is a fixed point of the normalisation: importing what was
    exported does not change it. *)
Theorem normDate_settles (rawDate : string) :
  JSDate.test JSDate.isoRe (JS.trim rawDate) || JSDate.test JSDate.brRe (JS.trim rawDate) = true ->
  IsoShape (normDate today genericDate (Some rawDate)) /\
  normDate today genericDate (Some (normDate today genericDate (Some rawDate)))
  = normDate today genericDate (Some rawDate).
Proof.
  intros H.
  assert (Hi : IsoShape (normDate today genericDate (Some rawDate))).
  { unfold normDate. cbn [JS.orEmpty].
    destruct rawDate as [|c r]; [discriminate H|]. cbn [JS.truthy JS.nonEmpty].
    destruct (JSDate.test JSDate.isoRe (JS.trim (String c r))) eqn:E1.
    - apply test_iso_shape, E1.
    - cbn [orb] in H. rewrite H.
      destruct (test_br_shape _ H) as (y & m & d & Hy & Hm & Hd & Hs).
      rewrite Hs. destruct (test_br y m d Hy Hm Hd) as [_ [_ ->]].
      exists y, m, d. auto. }
  split; [exact Hi | apply iso_fixed, Hi].
Qed.

End DateFormFacts.

Lemma normDate_settles_witness :
  Normalizer.normDate "2025-01-01" (fun _ => None)
    (Some (Normalizer.normDate "2025-01-01" (fun _ => None) (Some " 15/09/2025 ")))
  = Normalizer.normDate "2025-01-01" (fun _ => None) (Some " 15/09/2025 ").
Proof.
  apply (normDate_settles "2025-01-01" (fun _ => None) " 15/09/2025 "). reflexivity.
Defined.

Section ImportFacts.

Import Handlers RuleEngine.

Context {host : Host}.

Variable today : string.
Variable genericDate : string -> option string.
Variable uid : nat -> string.





End ImportFacts.

(** ** Deleting a rule *)


Section RemoveRuleFacts.

Import Handlers RuleEngine.

Context {host : Host}.

Lemma find_filter_keep {A : Type} (f p : A -> bool) (l : list A) :
  (forall x, List.find f l = Some x -> p x = true) ->
  List.find f (List.filter p l) = List.find f l.
Proof.
  induction l as [|x l IH]; intros H; [reflexivity|].
  cbn [List.find List.filter] in *. destruct (f x) eqn:Ef.
  - rewrite (H x eq_refl). cbn [List.find]. rewrite Ef. reflexivity.
  - destruct (p x); cbn [List.find]; rewrite ?Ef; apply IH, H.
Qed.

(** X15. Deleting a rule in the rules table changes only the transactions
    that rule categorized: a transaction that has a category already,
    that no rule hits, or whose first hit is a rule of another id gets the
    same result from the rules that are left. *)
Theorem removeRule_only_its_transactions (rules : list Rule) (id : string) (t : Tx) :
  JS.truthy (category t) = true \/
  (forall rule, List.find (ruleHits (desc t)) (activeRules rules) = Some rule ->
     rule_id rule <> id) ->
  categorize (activeRules (removeRule rules id)) t = categorize (activeRules rules) t.
Proof.
  intros [Hc | H].
  - rewrite !categorize_categorized by exact Hc. reflexivity.
  - unfold removeRule, activeRules at 1.
    rewrite filter_comm, sortByPriority_filter. fold (activeRules rules).
    unfold categorize. rewrite find_filter_keep; [reflexivity|].
    intros x Hx. apply negb_true_iff, String.eqb_neq, H, Hx.
Qed.

End RemoveRuleFacts.

Lemma removeRule_only_its_transactions_witness :
  RuleEngine.categorize
    (RuleEngine.activeRules
       (Handlers.removeRule [sampleRule "uber" "Transporte" 10;
                             {| rule_id := "r2"; keywords := "ifood"; rule_category := "Alimentação";
                                enabled := true; priority := 20 |}] "r2"))
    (sampleTx "Uber trip" None None)
  = withCategory (sampleTx "Uber trip" None None) "Transporte" /\
  RuleEngine.categorize
    (RuleEngine.activeRules
       (Handlers.removeRule [sampleRule "uber" "Transporte" 10] "r1"))
    (sampleTx "Uber trip" None (Some "Lazer"))
  = sampleTx "Uber trip" None (Some "Lazer").
Proof.
  split.
  - rewrite (removeRule_only_its_transactions _ "r2" (sampleTx "Uber trip" None None)).
    + reflexivity.
    + right. intros rule H. vm_compute in H. injection H as <-. discriminate.
  - rewrite (removeRule_only_its_transactions _ "r1" (sampleTx "Uber trip" None (Some "Lazer"))).
    + reflexivity.
    + left. reflexivity.
Defined.
